(** * A shallow embedding of the social-network API

    The development follows the JavaScript sources of the repository:

    - [api/middleware/jwt.js] and [api/middleware/authorize.js]: bearer
      token extraction, verification and the role gate;
    - [api/middleware/validator.js] with the Joi schemas of
      [api/validators/post.validators.js] and [user.validators.js];
    - [api/controllers/posts.controller.js] and
      [api/controllers/follows.controller.js]: the handlers over the
      process-wide arrays [users], [posts] and [follows];
    - [api/routes/posts.routes.js] and [api/routes/follows.routes.js]: the
      middleware chains mounted in front of the handlers;
    - [db/aggregation.js]: the MongoDB pipeline [getFollowingsPosts].

    Handlers are state-passing functions over the three arrays; a JavaScript
    exception inside a handler's [try] block is the handler's 500 answer.
    Logging ([console.log]) and the debugging response headers are not part
    of the model.  Strings are sequences of code units below 256. *)

From Stdlib Require Import ZArith DecimalString DecimalPos DecimalZ Ascii String
  Permutation Sorted Lia.
From stdpp Require Import prelude strings sorting.

Local Open Scope string_scope.

(** ** JavaScript values used by the handlers *)

Module Js.

(** Numbers as the handlers meet them: the integral doubles [parseInt]
    returns, [NaN], and the infinities a division by zero or a very long
    numeral produces. *)
Inductive num : Type :=
| NaN
| PInf
| NInf
| Num (z : Z).

#[global] Instance num_eq_dec : EqDecision num.
Proof. solve_decision. Defined.

(** [a < b]: every comparison with [NaN] is false. *)
Definition lt (a b : num) : bool :=
  match a, b with
  | NaN, _ | _, NaN => false
  | PInf, _ => false
  | _, NInf => false
  | NInf, _ => true
  | _, PInf => true
  | Num x, Num y => bool_decide (x < y)%Z
  end.

Definition sub (a b : num) : num :=
  match a, b with
  | NaN, _ | _, NaN => NaN
  | PInf, PInf | NInf, NInf => NaN
  | PInf, _ | _, NInf => PInf
  | NInf, _ | _, PInf => NInf
  | Num x, Num y => Num (x - y)
  end.

Definition add (a b : num) : num :=
  match a, b with
  | NaN, _ | _, NaN => NaN
  | PInf, NInf | NInf, PInf => NaN
  | PInf, _ | _, PInf => PInf
  | NInf, _ | _, NInf => NInf
  | Num x, Num y => Num (x + y)
  end.

Definition inf_of_sign (s : Z) : num :=
  if bool_decide (s = 0)%Z then NaN
  else if bool_decide (0 < s)%Z then PInf else NInf.

Definition sgn (a : num) : Z :=
  match a with
  | NaN => 0
  | PInf => 1
  | NInf => -1
  | Num x => Z.sgn x
  end.

Definition mul (a b : num) : num :=
  match a, b with
  | NaN, _ | _, NaN => NaN
  | Num x, Num y => Num (x * y)
  | _, _ => inf_of_sign (sgn a * sgn b)
  end.

(** [Math.min(a, b)]. *)
Definition min (a b : num) : num :=
  match a, b with
  | NaN, _ | _, NaN => NaN
  | NInf, _ | _, NInf => NInf
  | PInf, x | x, PInf => x
  | Num x, Num y => Num (Z.min x y)
  end.

(** [Math.ceil(total / limit)] for an array length [total]. *)
Definition ceil_div (total : nat) (limit : num) : num :=
  match limit with
  | NaN => NaN
  | PInf | NInf => Num 0
  | Num l =>
      if bool_decide (l = 0)%Z
      then (if bool_decide (total = 0%nat) then NaN else PInf)
      else Num (- ((- Z.of_nat total) / l))
  end.

(** White space as [String.prototype.trim] and [parseInt] skip it
    (TAB, LF, VT, FF, CR, SP, NBSP among the code units below 256). *)
Definition isWhiteSpace (c : ascii) : bool :=
  let n := nat_of_ascii c in
  bool_decide (9 <= n <= 13 \/ n = 32 \/ n = 160)%nat.

Fixpoint trimStart (s : string) : string :=
  match s with
  | String c s' => if isWhiteSpace c then trimStart s' else s
  | EmptyString => EmptyString
  end.

(** Drops trailing white space: a character is kept when something that
    is kept follows it, or when it is not white space itself. *)
Fixpoint trimEnd (s : string) : string :=
  match s with
  | EmptyString => EmptyString
  | String c s' =>
      match trimEnd s' with
      | EmptyString => if isWhiteSpace c then EmptyString else String c EmptyString
      | r => String c r
      end
  end.

(** [s.trim()] *)
Definition trim (s : string) : string := trimEnd (trimStart s).

(** [s.split(sep)] for a one-character separator. *)
Fixpoint split (sep : ascii) (s : string) : list string :=
  match s with
  | EmptyString => [EmptyString]
  | String c s' =>
      if bool_decide (c = sep) then EmptyString :: split sep s'
      else match split sep s' with
           | w :: ws => String c w :: ws
           | [] => [String c EmptyString]
           end
  end.

(** [parts.join(sep)] *)
Fixpoint join (sep : string) (parts : list string) : string :=
  match parts with
  | [] => EmptyString
  | [p] => p
  | p :: ps => p +:+ sep +:+ join sep ps
  end.

Definition digitVal (radix : Z) (c : ascii) : option Z :=
  let n := Z.of_nat (nat_of_ascii c) in
  let v :=
    if bool_decide (48 <= n <= 57)%Z then Some (n - 48)%Z
    else if bool_decide (97 <= n <= 122)%Z then Some (n - 87)%Z
    else if bool_decide (65 <= n <= 90)%Z then Some (n - 55)%Z
    else None in
  match v with
  | Some d => if bool_decide (d < radix)%Z then Some d else None
  | None => None
  end.

(** The longest prefix of digits of the radix, read as a number; [None]
    when the prefix is empty. *)
Fixpoint readDigits (radix : Z) (s : string) (acc : option Z) : option Z :=
  match s with
  | EmptyString => acc
  | String c s' =>
      match digitVal radix c with
      | Some d => readDigits radix s' (Some (default 0 acc * radix + d)%Z)
      | None => acc
      end
  end.

(** The Number value for an integer: the nearest double, a tie going to the
    even significand, and an infinity from [2^1024 - 2^970] on.  Integers
    below [2^53] in magnitude are doubles themselves. *)
Definition nearestDouble (z : Z) : num :=
  let a := Z.abs z in
  if bool_decide (a < 2 ^ 53)%Z then Num z
  else
    let k := (Z.log2 a - 52)%Z in
    let q := Z.shiftr a k in
    let r := (a - Z.shiftl q k)%Z in
    let half := Z.shiftl 1 (k - 1) in
    let q' := if bool_decide (half < r)%Z || (bool_decide (r = half)%Z && Z.odd q)
              then (q + 1)%Z else q in
    let m := Z.shiftl q' k in
    if bool_decide (m < 2 ^ 1024)%Z then Num (Z.sgn z * m)
    else if bool_decide (0 < z)%Z then PInf else NInf.

(** [parseInt(s)] without a radix argument: leading white space, a sign,
    a [0x] prefix, then digits; [NaN] when no digit is read, and otherwise
    the Number value of the integer the digits spell. *)
Definition parseInt (s : string) : num :=
  let s1 := trimStart s in
  let '(sign, s2) :=
    match s1 with
  | String "-" r => ((-1)%Z, r)
  | String "+" r => (1%Z, r)
  | _ => (1%Z, s1)
    end in
  let '(radix, s3) :=
    match s2 with
  | String "0" (String "x" r) => (16%Z, r)
  | String "0" (String "X" r) => (16%Z, r)
  | _ => (10%Z, s2)
    end in
  match readDigits radix s3 None with
  | Some v => nearestDouble (sign * v)
  | None => NaN
  end.

(** The index [ToIntegerOrInfinity] and the clamping of
    [Array.prototype.slice] give for a relative position. *)
Definition relativeIndex (len : nat) (k : num) : nat :=
  match k with
  | NaN => 0
  | PInf => len
  | NInf => 0
  | Num z =>
      if bool_decide (z < 0)%Z then Z.to_nat (Z.max (Z.of_nat len + z) 0)
      else Nat.min (Z.to_nat z) len
  end.

(** [l.slice(from, to)] *)
Definition slice {A} (from to : num) (l : list A) : list A :=
  let k := relativeIndex (length l) from in
  let final := relativeIndex (length l) to in
  take (final - k) (drop k l).

(** The decimal text of an integer, as a template literal prints it. *)
Definition decimal (z : Z) : string := NilZero.string_of_int (Z.to_int z).

(** [l.sort(cmp)]: the sort is stable, an element stays in front of the
    later ones it does not compare greater than. *)
Section Sort.
Context {A : Type} (cmp : A -> A -> Z).

Fixpoint insert_sorted (x : A) (l : list A) : list A :=
  match l with
  | [] => [x]
  | y :: l' =>
      if bool_decide (cmp x y <= 0)%Z then x :: y :: l' else y :: insert_sorted x l'
  end.

Definition sort (l : list A) : list A := foldr insert_sorted [] l.
End Sort.

End Js.


(** ** The data model: the rows of the three in-memory arrays *)

Module User.
Record t : Type := mk {
  id : string;
  name : string;
  email : string;
  role : string;
  password : string;
  isActive : bool;
  joined : Z;
  isDeleted : bool
}.
End User.

Module Post.
Record t : Type := mk {
  id : string;
  author : string;
  content : string;
  created : Z;
  isDeleted : bool;
  updatedAt : Z
}.
End Post.

Module Follow.
Record t : Type := mk {
  id : string;
  follower : string;
  following : string;
  created : Z;
  isDeleted : bool;
  updatedAt : option Z
}.
End Follow.

(** The module-level arrays [users], [posts] and [follows]. *)
Record Store : Type := mkStore {
  users : list User.t;
  posts : list Post.t;
  follows : list Follow.t
}.

(** ** Requests and responses *)

(** [req.user], attached by the authorization middleware. *)
Record Principal : Type := mkPrincipal {
  p_id : string;
  p_role : string;
  p_name : string
}.

(** [req.query]: the raw text of each parameter, when present. *)
Record Query : Type := mkQuery {
  page : option string;
  limit : option string;
  author : option string;
  sortBy : option string;
  sortOrder : option string
}.

Record Req : Type := mkReq {
  authorization : option string;   (* req.headers.authorization *)
  param : string;                  (* the route parameter, :id or :userId *)
  query : Query;
  content : option string;         (* req.body.content *)
  user : option Principal
}.

Record UserView : Type := mkUserView {
  uv_id : string;
  uv_name : string;
  uv_email : string;
  uv_role : string
}.

Record PostView : Type := mkPostView {
  pv_id : string;
  pv_author : string;
  pv_content : string;
  pv_created : Z
}.

Record PostsPagination : Type := mkPostsPagination {
  currentPage : Js.num;
  totalPages : Js.num;
  totalPosts : nat;
  postsPerPage : Js.num;
  hasNextPage : bool;
  hasPrevPage : bool
}.

Record FollowsPagination : Type := mkFollowsPagination {
  fp_page : Js.num;
  fp_limit : Js.num;
  fp_total : nat;
  fp_pages : Js.num
}.

(** The [data] member of a successful answer, per handler. *)
Inductive Data : Type :=
| DeletedPost (id author content : string) (created deletedAt : Z)
| PostsPage (posts : list PostView) (pagination : PostsPagination)
| PostDetail (post : Post.t)
| CreatedPost (post : PostView)
| FollowCreated (id follower following : string) (created : Z)
| Unfollowed (id follower following : string)
| FollowersPage (followers : list (string * UserView)) (pagination : FollowsPagination)
| FollowingPage (following : list (string * UserView)) (pagination : FollowsPagination)
| FollowStatus (isFollowing : bool) (targetUser : UserView)
| FollowStats (userId : string) (followersCount followingCount : nat) (user : UserView).

(** A diagnostic member of a failure: a text or an array of texts. *)
Inductive Detail : Type :=
| Text (s : string)
| Texts (l : list string).

(** [res.status(s).json({...})]: a success carries [data] and, for some
    handlers, a [message]; a failure its [code], [message] and the extra
    diagnostic members. *)
Inductive Response : Type :=
| Success (status : nat) (message : option string) (data : Data)
| Failure (status : nat) (code : string) (message : string)
    (details : list (string * Detail)).

Definition status_of (r : Response) : nat :=
  match r with
  | Success s _ _ => s
  | Failure s _ _ _ => s
  end.

Definition code_of (r : Response) : option string :=
  match r with
  | Success _ _ _ => None
  | Failure _ c _ _ => Some c
  end.

Definition is_success (r : Response) : bool :=
  match r with
  | Success _ _ _ => true
  | Failure _ _ _ _ => false
  end.

(** The system clock: [clock k] is the [k]-th reading ([Date.now()] or
    [new Date()], in milliseconds) taken while one request is handled. *)
Definition Clock : Type := nat -> Z.

(** A handler answers a request and leaves the arrays in a new state. *)
Definition Handler : Type := Clock -> Req -> Store -> Response * Store.

(** A middleware either answers itself or calls [next()] with the request
    it may have updated. *)
Definition Middleware : Type := Req -> Response + Req.

Fixpoint chain (mws : list Middleware) (req : Req) : Response + Req :=
  match mws with
  | [] => inr req
  | mw :: rest =>
      match mw req with
      | inl resp => inl resp
      | inr req' => chain rest req'
      end
  end.

(** [router.verb(path, mw1, ..., mwn, handler)] *)
Definition route (mws : list Middleware) (h : Handler) : Handler :=
  fun clock req st =>
    match chain mws req with
    | inl resp => (resp, st)
    | inr req' => h clock req' st
    end.

(** ** [middleware/jwt.js] *)

(** The payload [jwt.verify] returns for a token it accepts. *)
Record Decoded : Type := mkDecoded {
  d_id : string;
  d_role : string;
  d_name : string
}.

(** The [name] of the error [jwt.verify] throws. *)
Inductive JwtError : Type :=
| TokenExpiredError
| JsonWebTokenError
| NotBeforeError.

(** The [jsonwebtoken] library, with the secret, algorithm, issuer and
    audience of [JWT_CONFIG] already applied. *)
Class JsonWebToken : Type := {
  jwt_verify : string -> JwtError + Decoded
}.

(** A thrown [Error] is the [inl] of its message. *)
Definition verifyToken `{JsonWebToken} (token : string) : string + Decoded :=
  match jwt_verify token with
  | inr decoded => inr decoded
  | inl TokenExpiredError => inl "Token expired"
  | inl JsonWebTokenError => inl "Invalid token"
  | inl _ => inl "Token verification failed"
  end.

Definition extractTokenFromHeader (authHeader : option string) : string + string :=
  match authHeader with
  | None | Some EmptyString => inl "Authorization header missing"
  | Some h =>
      match Js.split " " h with
      | [scheme; token] =>
          if bool_decide (scheme = "Bearer") then inr token
          else inl "Invalid authorization header format"
      | _ => inl "Invalid authorization header format"
      end
  end.

(** ** [middleware/authorize.js] *)

(** [req.user = u] *)
Definition asUser (u : Principal) (req : Req) : Req :=
  {| authorization := authorization req;
     param := param req;
     query := query req;
     content := content req;
     user := Some u |}.

(** [authorize(roles)].  The two [res.set] calls that copy the id and the role
    of the token into debugging headers are left out: the tokens the server
    signs carry the ids and roles of its accounts. *)
Definition authorize `{JsonWebToken} (roles : list string) : Middleware :=
  fun req =>
    match extractTokenFromHeader (authorization req) with
    | inl message => inl (Failure 401 "AUTH_HEADER_ERROR" message [])
    | inr token =>
        match verifyToken token with
        | inl message => inl (Failure 401 "TOKEN_VERIFICATION_ERROR" message [])
        | inr decoded =>
            if bool_decide (0 < length roles)%nat
               && negb (bool_decide (elem_of (d_role decoded) roles))
            then inl (Failure 403 "INSUFFICIENT_PERMISSIONS"
                        ("Access denied. Required roles: " +:+ Js.join ", " roles
                           +:+ ". Your role: " +:+ d_role decoded)
                        [("requiredRoles", Texts roles);
                         ("userRole", Text (d_role decoded))])
            else inr (asUser {| p_id := d_id decoded;
                                p_role := d_role decoded;
                                p_name := d_name decoded |} req)
        end
    end.

Definition requireAdmin `{JsonWebToken} : Middleware := authorize ["admin"].
Definition requireUserOrAdmin `{JsonWebToken} : Middleware := authorize ["user"; "admin"].
Definition requireAuth `{JsonWebToken} : Middleware := authorize ["user"; "admin"].

(** ** [middleware/validator.js] and the Joi schemas *)

(** A schema yields the messages of [error.details], or the request with
    Joi's converted [value] put in place. *)
Definition Schema : Type := Req -> list string + Req.

Definition validate (schema : Schema) : Middleware :=
  fun req =>
    match schema req with
    | inl details => inl (Failure 400 "VALIDATION_ERROR" (Js.join ", " details) [])
    | inr req' => inr req'
    end.

(** [createPostSchema]: [body.content] is a required string of 1 to 1000
    characters; Joi measures the text as it was sent. *)
Definition createPostSchema : Schema :=
  fun req =>
    match content req with
    | None => inl ["Post content is required"]
    | Some s =>
        if bool_decide (s = EmptyString) then inl ["Post content cannot be empty"]
        else if bool_decide (1000 < String.length s)%nat
             then inl ["Post content cannot exceed 1000 characters"]
             else inr req
    end.

(** Joi's message for an empty string, the label between double quotes. *)
Definition notAllowedEmpty (label : string) : string :=
  let dquote := String (ascii_of_nat 34) EmptyString in
  dquote +:+ label +:+ dquote +:+ " is not allowed to be empty".

(** The characters of [/^[a-zA-Z0-9_-]+$/]. *)
Definition isIdChar (c : ascii) : bool :=
  let n := nat_of_ascii c in
  bool_decide ((48 <= n <= 57) \/ (65 <= n <= 90) \/ (97 <= n <= 122)
               \/ n = 95 \/ n = 45)%nat.

Fixpoint allChars (f : ascii -> bool) (s : string) : bool :=
  match s with
  | EmptyString => true
  | String c s' => f c && allChars f s'
  end.

(** [postIdSchema]: [params.id] is a required string matching the pattern. *)
Definition postIdSchema : Schema :=
  fun req =>
    if bool_decide (param req = EmptyString) then inl [notAllowedEmpty "params.id"]
    else if allChars isIdChar (param req) then inr req
    else inl ["Post ID contains invalid characters. Only letters, numbers, hyphens, and underscores are allowed."].

(** [userIdSchema] of [user.validators.js]: [params.userId] is a required
    string. *)
Definition userIdSchema : Schema :=
  fun req =>
    if bool_decide (param req = EmptyString) then inl [notAllowedEmpty "params.userId"]
    else inr req.

(** [validators/follow.validator.js] is not among the sources: its
    [followQuerySchema], spread next to [userIdSchema] in the followers and
    following routes, is a parameter of the model. *)
Class FollowValidator : Type := {
  followQuerySchema : Schema
}.

(** [{ ...userIdSchema, ...followQuerySchema }] *)
Definition userIdAndFollowQuerySchema `{FollowValidator} : Schema :=
  fun req =>
    match userIdSchema req, followQuerySchema req with
    | inl e1, inl e2 => inl (e1 ++ e2)%list
    | inl e1, inr _ => inl e1
    | inr _, inl e2 => inl e2
    | inr _, inr req' => inr req'
    end.

(** ** [controllers/posts.controller.js] *)

(** [validationResult(req)] of express-validator: no route runs a validation
    chain of that library, so the result it reads off the request is empty. *)
Definition validationResult (req : Req) : list string := [].

Definition internalError (code message : string) : Response :=
  Failure 500 code message [].

(** [posts[postIndex].isDeleted = true; posts[postIndex].updatedAt = new Date()] *)
Definition markPostDeleted (now : Z) (p : Post.t) : Post.t :=
  {| Post.id := Post.id p;
     Post.author := Post.author p;
     Post.content := Post.content p;
     Post.created := Post.created p;
     Post.isDeleted := true;
     Post.updatedAt := now |}.

Definition setPosts (st : Store) (ps : list Post.t) : Store :=
  {| users := users st; posts := ps; follows := follows st |}.

Definition setFollows (st : Store) (fs : list Follow.t) : Store :=
  {| users := users st; posts := posts st; follows := fs |}.

Definition deletePost : Handler :=
  fun clock req st =>
    match validationResult req with
    | _ :: _ => (Failure 400 "VALIDATION_ERROR" "Validation failed" [], st)
    | [] =>
        let id := param req in
        match list_find (fun post => Post.id post = id /\ Post.isDeleted post = false)
                        (posts st) with
        | None => (Failure 404 "POST_NOT_FOUND" "Post not found" [], st)
        | Some (postIndex, post) =>
            match user req with
            | None =>
                (* [user.role] on [undefined] throws inside the [try] *)
                (internalError "DELETE_POST_INTERNAL_ERROR"
                   "Internal server error during post deletion", st)
            | Some user =>
                if negb (bool_decide (p_role user = "admin"))
                   && negb (bool_decide (Post.author post = p_id user))
                then (Failure 403 "DELETE_PERMISSION_DENIED"
                        "You can only delete your own posts"
                        [("postAuthor", Text (Post.author post));
                         ("userRole", Text (p_role user));
                         ("requiredRole", Text "admin or post owner")], st)
                else
                  let now := clock 0%nat in
                  (Success 200 (Some "Post deleted successfully")
                     (DeletedPost (Post.id post) (Post.author post)
                        (Post.content post) (Post.created post) now),
                   setPosts st (alter (markPostDeleted now) postIndex (posts st)))
            end
        end
    end.

(** [parseInt(v)] for a query parameter destructured with a default. *)
Definition parseParam (dflt : Z) (v : option string) : Js.num :=
  match v with
  | None => Js.Num dflt
  | Some s => Js.parseInt s
  end.

Definition postView (post : Post.t) : PostView :=
  {| pv_id := Post.id post;
     pv_author := Post.author post;
     pv_content := Post.content post;
     pv_created := Post.created post |}.

Definition invalidPagination : Response :=
  Failure 400 "INVALID_PAGINATION" "Invalid pagination parameters" [].

(** The rows [getAllPosts] pages through: the posts that are not deleted,
    of the given author when the [author] parameter is a non-empty text,
    sorted on [created]. *)
Definition listedPosts (q : Query) (ps : list Post.t) : list Post.t :=
  let notDeleted := filter (fun post => Post.isDeleted post = false) ps in
  let filteredPosts :=
    match author q with
    | None | Some EmptyString => notDeleted
    | Some a => filter (fun post => Post.author post = a) notDeleted
    end in
  let sortMultiplier :=
    if bool_decide (default "desc" (sortOrder q) = "desc") then (-1)%Z else 1%Z in
  Js.sort (fun a b => ((Post.created a - Post.created b) * sortMultiplier)%Z)
    filteredPosts.

Definition getAllPosts : Handler :=
  fun clock req st =>
    let q := query req in
    let pageNum := parseParam 1 (page q) in
    let limitNum := Js.min (parseParam 10 (limit q)) (Js.Num 50) in
    let skip := Js.mul (Js.sub pageNum (Js.Num 1)) limitNum in
    if Js.lt pageNum (Js.Num 1) || Js.lt limitNum (Js.Num 1)
    then (invalidPagination, st)
    else
      let filteredPosts := listedPosts q (posts st) in
      let totalPosts := length filteredPosts in
      let totalPages := Js.ceil_div totalPosts limitNum in
      let paginatedPosts := Js.slice skip (Js.add skip limitNum) filteredPosts in
      (Success 200 None
         (PostsPage (map postView paginatedPosts)
            {| currentPage := pageNum;
               totalPages := totalPages;
               totalPosts := totalPosts;
               postsPerPage := limitNum;
               hasNextPage := Js.lt pageNum totalPages;
               hasPrevPage := Js.lt (Js.Num 1) pageNum |}), st).

Definition getPostById : Handler :=
  fun clock req st =>
    let id := param req in
    match list_find (fun post => Post.id post = id /\ Post.isDeleted post = false)
                    (posts st) with
    | None => (Failure 404 "POST_NOT_FOUND" "Post not found" [], st)
    | Some (_, post) => (Success 200 None (PostDetail post), st)
    end.

Definition createPost : Handler :=
  fun clock req st =>
    match content req, user req with
    | Some content, Some user =>
        let newPost :=
          {| Post.id := "p" +:+ Js.decimal (clock 0%nat);
             Post.author := p_id user;
             Post.content := Js.trim content;
             Post.created := clock 1%nat;
             Post.isDeleted := false;
             Post.updatedAt := clock 2%nat |} in
        (Success 201 (Some "Post created successfully") (CreatedPost (postView newPost)),
         setPosts st (posts st ++ [newPost]))
    | _, _ =>
        (* [user.id] or [content.trim()] on [undefined] throws *)
        (internalError "CREATE_POST_INTERNAL_ERROR"
           "Internal server error during post creation", st)
    end.

(** ** [controllers/follows.controller.js] *)

Definition userNotFound : Response :=
  Failure 404 "USER_NOT_FOUND" "User not found" [].

(** [users.find(u => u.id === userId && !u.isDeleted)] *)
Definition findUser (us : list User.t) (userId : string) : option User.t :=
  snd <$> list_find (fun u => User.id u = userId /\ User.isDeleted u = false) us.

(** The predicate [f.follower === a && f.following === b && !f.isDeleted]. *)
Definition activeEdge (a b : string) (f : Follow.t) : Prop :=
  Follow.follower f = a /\ Follow.following f = b /\ Follow.isDeleted f = false.

#[global] Instance activeEdge_dec a b f : Decision (activeEdge a b f).
Proof. unfold activeEdge. apply _. Defined.

Definition userView (u : User.t) : UserView :=
  {| uv_id := User.id u;
     uv_name := User.name u;
     uv_email := User.email u;
     uv_role := User.role u |}.

Definition followUser : Handler :=
  fun clock req st =>
    let userId := param req in
    match user req with
    | None =>
        (* [currentUser.id] on [undefined] throws inside the [try] *)
        (internalError "FOLLOW_INTERNAL_ERROR"
           "Internal server error during follow operation", st)
    | Some currentUser =>
        if bool_decide (p_id currentUser = userId)
        then (Failure 400 "SELF_FOLLOW_ERROR" "You cannot follow yourself" [], st)
        else
          match findUser (users st) userId with
          | None => (userNotFound, st)
          | Some targetUser =>
              match list_find (activeEdge (p_id currentUser) userId) (follows st) with
              | Some _ =>
                  (Failure 400 "ALREADY_FOLLOWING"
                     "You are already following this user" [], st)
              | None =>
                  let newFollow :=
                    {| Follow.id := "f" +:+ Js.decimal (Z.of_nat (length (follows st)) + 1);
                       Follow.follower := p_id currentUser;
                       Follow.following := userId;
                       Follow.created := clock 0%nat;
                       Follow.isDeleted := false;
                       Follow.updatedAt := None |} in
                  (Success 201 (Some ("Successfully followed " +:+ User.name targetUser))
                     (FollowCreated (Follow.id newFollow) (p_id currentUser) userId
                        (Follow.created newFollow)),
                   setFollows st (follows st ++ [newFollow]))
              end
          end
    end.

(** [follows[i].isDeleted = true; follows[i].updatedAt = new Date()] *)
Definition markFollowDeleted (now : Z) (f : Follow.t) : Follow.t :=
  {| Follow.id := Follow.id f;
     Follow.follower := Follow.follower f;
     Follow.following := Follow.following f;
     Follow.created := Follow.created f;
     Follow.isDeleted := true;
     Follow.updatedAt := Some now |}.

Definition unfollowUser : Handler :=
  fun clock req st =>
    let userId := param req in
    match user req with
    | None =>
        (internalError "UNFOLLOW_INTERNAL_ERROR"
           "Internal server error during unfollow operation", st)
    | Some currentUser =>
        if bool_decide (p_id currentUser = userId)
        then (Failure 400 "SELF_UNFOLLOW_ERROR" "You cannot unfollow yourself" [], st)
        else
          match findUser (users st) userId with
          | None => (userNotFound, st)
          | Some targetUser =>
              match list_find (activeEdge (p_id currentUser) userId) (follows st) with
              | None =>
                  (Failure 400 "NOT_FOLLOWING" "You are not following this user" [], st)
              | Some (existingFollowIndex, existingFollow) =>
                  (Success 200 (Some ("Successfully unfollowed " +:+ User.name targetUser))
                     (Unfollowed (Follow.id existingFollow) (p_id currentUser) userId),
                   setFollows st
                     (alter (markFollowDeleted (clock 0%nat)) existingFollowIndex
                        (follows st)))
              end
          end
    end.

(** The pagination block shared by [getFollowers] and [getFollowing]. *)
Definition followsPage {A} (q : Query) (rows : list A)
  : list A * FollowsPagination :=
  let pageNum := parseParam 1 (page q) in
  let limitNum := Js.min (parseParam 10 (limit q)) (Js.Num 50) in
  let skip := Js.mul (Js.sub pageNum (Js.Num 1)) limitNum in
  (Js.slice skip (Js.add skip limitNum) rows,
   {| fp_page := pageNum;
      fp_limit := limitNum;
      fp_total := length rows;
      fp_pages := Js.ceil_div (length rows) limitNum |}).

(** The callback of [userFollowers.map(...)]: the counterpart account is
    looked up and its members are read at once, so a lookup that finds
    nothing throws a [TypeError] ([None]) before the object is built. *)
Definition withDetails (us : list User.t) (counterpart : Follow.t -> string)
  (follow : Follow.t) : option (string * UserView) :=
  match findUser us (counterpart follow) with
  | None => None
  | Some u => Some (Follow.id follow, userView u)
  end.

(** [rows.map(withDetails).filter(f => f.follower)]: the exception of one
    callback aborts the whole [map]; the objects the callback does build
    are all truthy, so the [filter] keeps every row. *)
Definition joinAccounts (us : list User.t) (counterpart : Follow.t -> string)
  (rows : list Follow.t) : option (list (string * UserView)) :=
  filter (fun _ => True) <$> mapM (withDetails us counterpart) rows.

Definition getFollowers : Handler :=
  fun clock req st =>
    let userId := param req in
    match findUser (users st) userId with
    | None => (userNotFound, st)
    | Some targetUser =>
        let userFollowers :=
          filter (fun f => Follow.following f = userId /\ Follow.isDeleted f = false)
                 (follows st) in
        match joinAccounts (users st) Follow.follower userFollowers with
        | None =>
            (internalError "GET_FOLLOWERS_INTERNAL_ERROR"
               "Internal server error while fetching followers", st)
        | Some followersWithDetails =>
            let '(paginatedFollowers, pagination) :=
              followsPage (query req) followersWithDetails in
            (Success 200 None (FollowersPage paginatedFollowers pagination), st)
        end
    end.

Definition getFollowing : Handler :=
  fun clock req st =>
    let userId := param req in
    match findUser (users st) userId with
    | None => (userNotFound, st)
    | Some targetUser =>
        let userFollowing :=
          filter (fun f => Follow.follower f = userId /\ Follow.isDeleted f = false)
                 (follows st) in
        match joinAccounts (users st) Follow.following userFollowing with
        | None =>
            (internalError "GET_FOLLOWING_INTERNAL_ERROR"
               "Internal server error while fetching following", st)
        | Some followingWithDetails =>
            let '(paginatedFollowing, pagination) :=
              followsPage (query req) followingWithDetails in
            (Success 200 None (FollowingPage paginatedFollowing pagination), st)
        end
    end.

(** [follows.some(f => f.follower === a && f.following === b && !f.isDeleted)] *)
Definition isFollowing (fs : list Follow.t) (a b : string) : bool :=
  bool_decide (Exists (activeEdge a b) fs).

Definition checkFollowStatus : Handler :=
  fun clock req st =>
    let userId := param req in
    match findUser (users st) userId with
    | None => (userNotFound, st)
    | Some targetUser =>
        match user req, follows st with
        | None, _ :: _ =>
            (* the callback of [some] reads [currentUser.id] on its first call *)
            (internalError "CHECK_FOLLOW_INTERNAL_ERROR"
               "Internal server error while checking follow status", st)
        | None, [] =>
            (Success 200 None (FollowStatus false (userView targetUser)), st)
        | Some currentUser, fs =>
            (Success 200 None
               (FollowStatus (isFollowing fs (p_id currentUser) userId)
                  (userView targetUser)), st)
        end
    end.

Definition getFollowStats : Handler :=
  fun clock req st =>
    let userId := param req in
    match findUser (users st) userId with
    | None => (userNotFound, st)
    | Some targetUser =>
        let followersCount :=
          length (filter (fun f => Follow.following f = userId
                                   /\ Follow.isDeleted f = false) (follows st)) in
        let followingCount :=
          length (filter (fun f => Follow.follower f = userId
                                   /\ Follow.isDeleted f = false) (follows st)) in
        (Success 200 None
           (FollowStats userId followersCount followingCount (userView targetUser)),
         st)
    end.

(** ** [routes/posts.routes.js] and [routes/follows.routes.js] *)

Definition getPostsRoute : Handler := route [] getAllPosts.

Definition getPostRoute : Handler := route [validate postIdSchema] getPostById.

Definition createPostRoute `{JsonWebToken} : Handler :=
  route [requireUserOrAdmin; validate createPostSchema] createPost.

Definition deletePostRoute `{JsonWebToken} : Handler :=
  route [requireAdmin; validate postIdSchema] deletePost.

Definition followRoute `{JsonWebToken} : Handler :=
  route [requireAuth; validate userIdSchema] followUser.

Definition unfollowRoute `{JsonWebToken} : Handler :=
  route [requireAuth; validate userIdSchema] unfollowUser.

Definition followersRoute `{JsonWebToken} `{FollowValidator} : Handler :=
  route [requireAuth; validate userIdAndFollowQuerySchema] getFollowers.

Definition followingRoute `{JsonWebToken} `{FollowValidator} : Handler :=
  route [requireAuth; validate userIdAndFollowQuerySchema] getFollowing.

Definition checkFollowRoute `{JsonWebToken} : Handler :=
  route [requireAuth; validate userIdSchema] checkFollowStatus.

Definition followStatsRoute `{JsonWebToken} : Handler :=
  route [requireAuth; validate userIdSchema] getFollowStats.

(** [routes/index.js] mounts the two routers; the endpoints they serve. *)
Inductive Endpoint : Type :=
| GET_posts
| GET_posts_id
| POST_posts
| DELETE_posts_id
| POST_follows_userId
| DELETE_follows_userId
| GET_follows_followers_userId
| GET_follows_following_userId
| GET_follows_check_userId
| GET_follows_stats_userId.

Definition dispatch `{JsonWebToken} `{FollowValidator} (e : Endpoint) : Handler :=
  match e with
  | GET_posts => getPostsRoute
  | GET_posts_id => getPostRoute
  | POST_posts => createPostRoute
  | DELETE_posts_id => deletePostRoute
  | POST_follows_userId => followRoute
  | DELETE_follows_userId => unfollowRoute
  | GET_follows_followers_userId => followersRoute
  | GET_follows_following_userId => followingRoute
  | GET_follows_check_userId => checkFollowRoute
  | GET_follows_stats_userId => followStatsRoute
  end.

(** ** [db/aggregation.js]: the feed pipeline

    The collections [follows], [posts] and [users] hold the rows of the data
    model, a row's [id] being the document's [_id].  The pipeline reads the
    members [follower], [following], [author], [_id], [content], [created]
    and [name] only. *)

Module Db.

(** The document [$project] builds. *)
Record FeedEntry : Type := mkFeedEntry {
  _id : string;
  content : string;
  created : Z;
  authorName : string
}.

(** [{ $match: { follower: userId } }] on the [follows] collection. *)
Definition matchFollower (userId : string) (fs : list Follow.t) : list Follow.t :=
  filter (fun f => Follow.follower f = userId) fs.

(** [$lookup] from [posts] on [following = author], then [$unwind]: one
    document per follow edge and post of the followed account. *)
Definition lookupPosts (ps : list Post.t) (fs : list Follow.t)
  : list (Follow.t * Post.t) :=
  f ← fs; (fun p => (f, p)) <$> filter (fun p => Post.author p = Follow.following f) ps.

(** [$lookup] from [users] on [posts.author = _id], then [$unwind]. *)
Definition lookupAuthor (us : list User.t) (docs : list (Follow.t * Post.t))
  : list (Follow.t * Post.t * User.t) :=
  d ← docs; (fun u => (d, u)) <$> filter (fun u => User.id u = Post.author (snd d)) us.

(** [$project] *)
Definition project (d : Follow.t * Post.t * User.t) : FeedEntry :=
  let '(_, post, author) := d in
  {| _id := Post.id post;
     content := Post.content post;
     created := Post.created post;
     authorName := User.name author |}.

(** The documents that reach the [$sort] stage, with the post each one was
    projected from. *)
Definition joined (st : Store) (userId : string) : list (Follow.t * Post.t * User.t) :=
  lookupAuthor (users st) (lookupPosts (posts st) (matchFollower userId (follows st))).

Definition projected (st : Store) (userId : string) : list FeedEntry :=
  project <$> joined st userId.

(** [{ $sort: { created: -1 } }]: the output holds the input documents,
    newest first; MongoDB leaves the order of documents with equal keys
    open, so the stage is a relation. *)
Definition newestFirst (a b : FeedEntry) : Prop := (created b <= created a)%Z.

Definition sortStage (input output : list FeedEntry) : Prop :=
  Permutation input output /\ Sorted newestFirst output.

(** [getFollowingsPosts(userId)] run by [executeAggregation] on the
    [follows] collection: [result] is an answer the pipeline may give. *)
Definition getFollowingsPosts (st : Store) (userId : string)
  (result : list FeedEntry) : Prop :=
  exists sorted, sortStage (projected st userId) sorted /\ result = take 10 sorted.

(** One run of the pipeline, with a stable sort. *)
Definition executeAggregation (st : Store) (userId : string) : list FeedEntry :=
  take 10 (Js.sort (fun a b => (created b - created a)%Z) (projected st userId)).

(** The accounts the viewer's follow documents point to. *)
Definition followedSet (st : Store) (userId : string) : list string :=
  Follow.following <$> matchFollower userId (follows st).

End Db.

(** ** Sample data: the seed rows of the models and a token table *)

Definition seedUser (id name email role : string) (joined : Z) : User.t :=
  {| User.id := id; User.name := name; User.email := email; User.role := role;
     User.password := "$2a$10$hash"; User.isActive := true; User.joined := joined;
     User.isDeleted := false |}.

Definition seedUsers : list User.t :=
  [ seedUser "u1" "John Doe" "john.doe@example.com" "admin" 1705309200000;
    seedUser "u2" "Jane Doe" "jane.doe@example.com" "user" 1706877000000;
    seedUser "u3" "Jim Doe" "jim.doe@example.com" "user" 1709307900000;
    seedUser "u4" "Jill Doe" "jill.doe@example.com" "user" 1710058800000;
    seedUser "u5" "Jack Doe" "jack.doe@example.com" "user" 1710511800000 ].

Definition seedFollow (id follower following : string) (created : Z) : Follow.t :=
  {| Follow.id := id; Follow.follower := follower; Follow.following := following;
     Follow.created := created; Follow.isDeleted := false; Follow.updatedAt := None |}.

Definition seedFollows : list Follow.t :=
  [ seedFollow "f1" "u1" "u2" 1707991200000;
    seedFollow "f2" "u1" "u3" 1709649000000;
    seedFollow "f3" "u2" "u1" 1708447500000;
    seedFollow "f4" "u3" "u1" 1710062100000;
    seedFollow "f5" "u4" "u1" 1710242400000;
    seedFollow "f6" "u5" "u2" 1710423900000 ].

Definition samplePost (id author content : string) (created : Z) (isDeleted : bool)
  : Post.t :=
  {| Post.id := id; Post.author := author; Post.content := content;
     Post.created := created; Post.isDeleted := isDeleted; Post.updatedAt := created |}.

Definition samplePosts : list Post.t :=
  [ samplePost "p1" "u2" "Hello!" 1710093600000 false;
    samplePost "p2" "u2" "Hey Bob" 1710148500000 false;
    samplePost "p3" "u3" "Great day!" 1710253200000 false;
    samplePost "p5" "u2" "Hello!" 1710093600000 false ].

Definition sampleStore : Store :=
  {| users := seedUsers; posts := samplePosts; follows := seedFollows |}.

(** A token table standing for [jsonwebtoken]: one token per seed account,
    one that has expired; every other text is rejected. *)
Definition sampleJwt : JsonWebToken :=
  {| jwt_verify token :=
       if bool_decide (token = "token-u1")
       then inr {| d_id := "u1"; d_role := "admin"; d_name := "John Doe" |}
       else if bool_decide (token = "token-u2")
       then inr {| d_id := "u2"; d_role := "user"; d_name := "Jane Doe" |}
       else if bool_decide (token = "token-old") then inl TokenExpiredError
       else inl JsonWebTokenError |}.

(** A follow-query schema that lets every query through unchanged. *)
Definition permissiveFollowValidator : FollowValidator :=
  {| followQuerySchema req := inr req |}.

Definition noQuery : Query :=
  {| page := None; limit := None; author := None; sortBy := None; sortOrder := None |}.

Definition sampleReq (auth : option string) (param : string) (q : Query)
  (content : option string) : Req :=
  {| authorization := auth; param := param; query := q; content := content;
     user := None |}.

Definition sampleClock : Clock := fun k => (1710600000000 + Z.of_nat k)%Z.

(** ** Well-formed stores *)

(** An id that [postIdSchema] lets through. *)
Definition validPostId (s : string) : Prop :=
  s <> EmptyString /\ allChars isIdChar s = true.

(** Every stored post carries such an id: the ids [createPost] makes are
    [p] followed by a decimal number. *)
Definition postIdsValid (st : Store) : Prop :=
  Forall (fun post => validPostId (Post.id post)) (posts st).

(** No active edge from an account to itself. *)
Definition noSelfFollow (fs : list Follow.t) : Prop :=
  Forall (fun f => Follow.isDeleted f = false ->
                   Follow.follower f <> Follow.following f) fs.

(** At most one active edge per (follower, following) pair. *)
Definition uniqueActive (fs : list Follow.t) : Prop :=
  forall a b, (length (filter (activeEdge a b) fs) <= 1)%nat.

Definition followInvariant (st : Store) : Prop :=
  noSelfFollow (follows st) /\ uniqueActive (follows st).

(** The (follower, following) pairs of the active edges, in store order. *)
Definition activePairs (fs : list Follow.t) : list (string * string) :=
  (fun f => (Follow.follower f, Follow.following f))
    <$> filter (fun f => Follow.isDeleted f = false) fs.

(** The store without its soft-deleted posts and follow edges. *)
Definition purge (st : Store) : Store :=
  {| users := users st;
     posts := filter (fun post => Post.isDeleted post = false) (posts st);
     follows := filter (fun f => Follow.isDeleted f = false) (follows st) |}.

(** The seed store with two active edges whose counterpart [u9] is not an
    account: [u9] follows [u2], and [u2] follows [u9]. *)
Definition danglingStore : Store :=
  {| users := seedUsers;
     posts := samplePosts;
     follows := seedFollows ++ [ seedFollow "f7" "u9" "u2" 1710500000000;
                                 seedFollow "f8" "u2" "u9" 1710500000001 ] |}.

(** The sample store after the post [p3] of [u3] was soft-deleted. *)
Definition softDeletedStore : Store :=
  {| users := seedUsers;
     posts := [ samplePost "p1" "u2" "Hello!" 1710093600000 false;
                samplePost "p2" "u2" "Hey Bob" 1710148500000 false;
                samplePost "p3" "u3" "Great day!" 1710253200000 true ];
     follows := seedFollows |}.

(** Newest first, posts of one instant by descending id. *)
Definition newestFirstThenId (a b : Db.FeedEntry) : Prop :=
  (Db.created b < Db.created a)%Z
  \/ (Db.created b = Db.created a /\ String.compare (Db._id b) (Db._id a) <> Gt).

Fixpoint repeatChar (n : nat) (c : ascii) : string :=
  match n with
  | O => EmptyString
  | S n' => String c (repeatChar n' c)
  end.

Definition withPage (p l : option string) : Query :=
  {| page := p; limit := l; author := None; sortBy := None; sortOrder := None |}.

(** ** [optionalAuth] of [middleware/authorize.js] *)

(** The request goes on in every case; the principal is attached when the
    header is there and the token is extracted and verified. *)
Definition optionalAuth `{JsonWebToken} : Middleware :=
  fun req =>
    match authorization req with
    | None | Some EmptyString => inr req
    | Some authHeader =>
        match extractTokenFromHeader (Some authHeader) with
        | inl _ => inr req
        | inr token =>
            match verifyToken token with
            | inl _ => inr req
            | inr decoded =>
                inr (asUser {| p_id := d_id decoded;
                               p_role := d_role decoded;
                               p_name := d_name decoded |} req)
            end
        end
    end.

(** ** [middleware/jwt.js]: issuing tokens and checking credentials *)

(** The payload [generateToken] signs. *)
Record Payload : Type := mkPayload {
  pl_id : string;
  pl_role : string;
  pl_name : string;
  pl_iat : Z;
  pl_iss : string;
  pl_aud : string
}.

(** [jwt.sign] with the secret, algorithm and lifetime of [JWT_CONFIG];
    [None] when it throws. *)
Class JwtSigner : Type := {
  jwt_sign : Payload -> option string
}.

(** [bcrypt.compareSync(password, hash)] *)
Class Bcrypt : Type := {
  compareSync : string -> string -> bool
}.

(** [generateToken(user)] at clock reading [now]; the [inl] is the message
    of the error it throws. *)
Definition generateToken `{JwtSigner} (now : Z) (u : User.t) : string + string :=
  match jwt_sign {| pl_id := User.id u;
                    pl_role := User.role u;
                    pl_name := User.name u;
                    pl_iat := (now / 1000)%Z;
                    pl_iss := "social-network-api";
                    pl_aud := "social-network-users" |} with
  | Some token => inr token
  | None => inl "Failed to generate token"
  end.

(** [authenticateUser(email, password)] over the [users] array. *)
Definition authenticateUser `{Bcrypt} (us : list User.t) (email password : string)
  : option User.t :=
  match snd <$> list_find (fun u => User.email u = email) us with
  | None => None
  | Some u => if compareSync password (User.password u) then Some u else None
  end.

(** ** [controllers/auth.controller.js] and [routes/auth.routes.js] *)

Inductive AuthData : Type :=
| LoginData (id name role : string) (token : string) (expiresIn : string)
| ProfileData (user : Principal).

Inductive AuthResponse : Type :=
| AuthSuccess (status : nat) (message : option string) (data : AuthData)
| AuthFailure (answer : Response).

(** [login] for a body whose [email] and [password] are texts, as
    [loginSchema] leaves it.  The clock is read for the start time, for the
    log line, and then by [generateToken]. *)
Definition login `{Bcrypt} `{JwtSigner} (clock : Clock) (email password : string)
  (st : Store) : AuthResponse :=
  match authenticateUser (users st) email password with
  | None => AuthFailure (Failure 401 "INVALID_CREDENTIALS" "Invalid credentials" [])
  | Some u =>
      match generateToken (clock 2%nat) u with
      | inl _ =>
          AuthFailure (internalError "LOGIN_INTERNAL_ERROR"
                         "Internal server error during login")
      | inr token =>
          AuthSuccess 200 (Some "Login successful")
            (LoginData (User.id u) (User.name u) (User.role u) token "24h")
      end
  end.

Definition getProfile (req : Req) : AuthResponse :=
  match user req with
  | None =>
      (* [req.user.id] on [undefined] throws inside the [try] *)
      AuthFailure (internalError "PROFILE_INTERNAL_ERROR" "Internal server error")
  | Some u => AuthSuccess 200 None (ProfileData u)
  end.

(** [router.get('/profile', requireAuth, getProfile)] *)
Definition profileRoute `{JsonWebToken} (req : Req) : AuthResponse :=
  match chain [requireAuth] req with
  | inl answer => AuthFailure answer
  | inr req' => getProfile req'
  end.

(** ** [middleware/errorHandler.js] *)

Module ErrorHandler.

(** What the handler reads of the error object it is given. *)
Record JsError : Type := mkJsError {
  name : string;
  status : option nat;
  code : option string;
  isSyntaxError : bool;     (* err instanceof SyntaxError *)
  hasBody : bool;           (* 'body' in err *)
  message : string;
  stack : string;
  errors : option (list string)
}.

(** The JSON body [errorResponse]. *)
Record Body : Type := mkBody {
  b_message : string;
  b_code : string;
  b_statusCode : nat;
  b_errors : option (list string);
  b_stack : option string;
  b_details : option string
}.

Definition plain (m c : string) (s : nat) : nat * Body :=
  (s, {| b_message := m; b_code := c; b_statusCode := s; b_errors := None;
         b_stack := None; b_details := None |}).

(** [errorHandler(err, req, res, next)]: the status given to [res.status]
    and the body given to [json]; [development] says whether [NODE_ENV] is
    [development]. *)
Definition errorHandler (development : bool) (err : JsError) : nat * Body :=
  if bool_decide (name err = "ValidationError")
  then (400%nat, {| b_message := "Validation error"; b_code := "VALIDATION_ERROR";
                    b_statusCode := 400; b_errors := errors err;
                    b_stack := None; b_details := None |})
  else if bool_decide (name err = "UnauthorizedError")
  then plain "Unauthorized" "UNAUTHORIZED" 401
  else if bool_decide (name err = "ForbiddenError")
  then plain "Forbidden" "FORBIDDEN" 403
  else if bool_decide (name err = "NotFoundError")
  then plain "Resource not found" "NOT_FOUND" 404
  else if bool_decide (name err = "JsonWebTokenError")
  then plain "Invalid token" "TOKEN_VERIFICATION_ERROR" 401
  else if bool_decide (name err = "TokenExpiredError")
  then plain "Token expired" "TOKEN_EXPIRED" 401
  else if bool_decide (status err = Some 429%nat)
  then plain "Too many requests" "RATE_LIMIT_EXCEEDED" 429
  else if isSyntaxError err && bool_decide (status err = Some 400%nat) && hasBody err
  then plain "Invalid JSON format" "INVALID_JSON" 400
  else if bool_decide (code err = Some "ECONNREFUSED")
  then plain "Database connection failed" "DATABASE_CONNECTION_ERROR" 503
  else if bool_decide (code err = Some "ETIMEDOUT")
  then plain "Request timeout" "REQUEST_TIMEOUT" 408
  else (500%nat, {| b_message := "Internal server error";
                    b_code := "INTERNAL_SERVER_ERROR";
                    b_statusCode := 500;
                    b_errors := None;
                    b_stack := if development then Some (stack err) else None;
                    b_details := if development then Some (message err) else None |}).

End ErrorHandler.

(** ** [debug/posts-debug.js] *)

Module Debug.

(** [getSortedPosts_ORIGINAL]: every document of the collection, sorted in
    memory, newest first. *)
Definition getSortedPosts_ORIGINAL (docs : list Post.t) : list Post.t :=
  Js.sort (fun a b => (Post.created b - Post.created a)%Z) docs.

Record Paged : Type := mkPaged {
  pg_posts : list Post.t;
  pg_page : Z;
  pg_limit : Z;
  pg_total : nat;
  pg_pages : Js.num
}.

(** [Posts.find().sort({ created: -1 })]: the documents, newest first, in
    an order the database is free to choose among equal dates. *)
Definition sortedByDb (docs sorted : list Post.t) : Prop :=
  Permutation docs sorted
  /\ Sorted (fun a b => (Post.created b <= Post.created a)%Z) sorted.

(** [getSortedPosts_OPTIMIZED]: [result] is an answer it may give. *)
Definition getSortedPosts_OPTIMIZED (docs : list Post.t) (result : Paged) : Prop :=
  exists sorted,
    sortedByDb docs sorted
    /\ let page := 1%Z in
       let limit := 10%Z in
       let skip := ((page - 1) * limit)%Z in
       let found := take (Z.to_nat limit) (drop (Z.to_nat skip) sorted) in
       let total := length found in
       result = {| pg_posts := found; pg_page := page; pg_limit := limit;
                   pg_total := total;
                   pg_pages := Js.ceil_div total (Js.Num limit) |}.

End Debug.

(** ** Histories of requests *)

(** A post row later in time: same id, author, content and creation time,
    and still deleted if it was. *)
Definition postKept (p p' : Post.t) : Prop :=
  Post.id p' = Post.id p /\ Post.author p' = Post.author p
  /\ Post.content p' = Post.content p /\ Post.created p' = Post.created p
  /\ (Post.isDeleted p = true -> Post.isDeleted p' = true).

Definition followKept (f f' : Follow.t) : Prop :=
  Follow.id f' = Follow.id f /\ Follow.follower f' = Follow.follower f
  /\ Follow.following f' = Follow.following f
  /\ Follow.created f' = Follow.created f
  /\ (Follow.isDeleted f = true -> Follow.isDeleted f' = true).

(** [st'] holds the rows of [st], in place, and possibly more at the end. *)
Definition storeGrows (st st' : Store) : Prop :=
  users st' = users st
  /\ (exists kept more, posts st' = (kept ++ more)%list /\ Forall2 postKept (posts st) kept)
  /\ (exists kept more, follows st' = (kept ++ more)%list
                        /\ Forall2 followKept (follows st) kept).

(** One request as the server meets it. *)
Record Call : Type := mkCall {
  c_endpoint : Endpoint;
  c_clock : Clock;
  c_req : Req
}.

(** The store after the calls were served one after the other. *)
Definition serve `{JsonWebToken} `{FollowValidator} (calls : list Call) (st : Store)
  : Store :=
  foldl (fun s c => snd (dispatch (c_endpoint c) (c_clock c) (c_req c) s)) st calls.

(** The ids of the follow rows are [f1], [f2], ... in store order. *)
Definition followIdsCanonical (fs : list Follow.t) : Prop :=
  forall i e, fs !! i = Some e -> Follow.id e = "f" +:+ Js.decimal (Z.of_nat i + 1).

(** At most one post that is not deleted carries the id. *)
Definition activeIdUnique (ps : list Post.t) (id : string) : Prop :=
  (length (filter (fun p => Post.id p = id /\ Post.isDeleted p = false) ps) <= 1)%nat.

Definition hasNoSpace (s : string) : Prop :=
  allChars (fun c => negb (bool_decide (c = " "%char))) s = true.

(** A signer and a password check to go with [sampleJwt]: the two seed
    accounts get the tokens of the table, the stored hash is the password
    itself after [hash:]. *)
Definition sampleSigner : JwtSigner :=
  {| jwt_sign pl :=
       if bool_decide (pl_id pl = "u1" /\ pl_role pl = "admin"
                       /\ pl_name pl = "John Doe")
       then Some "token-u1"
       else if bool_decide (pl_id pl = "u2" /\ pl_role pl = "user"
                            /\ pl_name pl = "Jane Doe")
       then Some "token-u2"
       else None |}.

Definition sampleBcrypt : Bcrypt :=
  {| compareSync password hash := bool_decide (hash = "hash:" +:+ password) |}.

Definition loginUsers : list User.t :=
  [ {| User.id := "u1"; User.name := "John Doe"; User.email := "john.doe@example.com";
       User.role := "admin"; User.password := "hash:password"; User.isActive := true;
       User.joined := 1705309200000; User.isDeleted := false |};
    {| User.id := "u2"; User.name := "Jane Doe"; User.email := "jane.doe@example.com";
       User.role := "user"; User.password := "hash:password"; User.isActive := false;
       User.joined := 1706877000000; User.isDeleted := true |} ].

Definition loginStore : Store :=
  {| users := loginUsers; posts := samplePosts; follows := seedFollows |}.

(** The account with its [isActive] and [isDeleted] flags set. *)
Definition setFlags (active deleted : bool) (u : User.t) : User.t :=
  {| User.id := User.id u; User.name := User.name u; User.email := User.email u;
     User.role := User.role u; User.password := User.password u;
     User.isActive := active; User.joined := User.joined u;
     User.isDeleted := deleted |}.

Definition setUsers (st : Store) (us : list User.t) : Store :=
  {| users := us; posts := posts st; follows := follows st |}.

(** The two counts of [getFollowStats]. *)
Definition followersCount (fs : list Follow.t) (userId : string) : nat :=
  length (filter (fun f => Follow.following f = userId /\ Follow.isDeleted f = false) fs).

Definition followingCount (fs : list Follow.t) (userId : string) : nat :=
  length (filter (fun f => Follow.follower f = userId /\ Follow.isDeleted f = false) fs).

(** No post that is not deleted carries the id. *)
Definition idFree (ps : list Post.t) (id : string) : Prop :=
  Forall (fun p => ~ (Post.id p = id /\ Post.isDeleted p = false)) ps.

(** The posts of an answer of [getAllPosts]. *)
Definition pageViews (r : Response) : list PostView :=
  match r with
  | Success _ _ (PostsPage views _) => views
  | _ => []
  end.



(** * Properties *)

(** ** The middleware chain *)

Lemma route_inv (mws : list Middleware) (h : Handler) clock req st resp st' :
  route mws h clock req st = (resp, st') ->
  (chain mws req = inl resp /\ st' = st)
  \/ (exists req', chain mws req = inr req' /\ h clock req' st = (resp, st')).
Proof.
  unfold route. destruct (chain mws req) as [r | req'] eqn:E.
  - intros [= <- <-]. by left.
  - intros Hh. right. eauto.
Qed.

(** What a handler is allowed to find true of the store survives the
    middleware in front of it. *)
Lemma route_preserves (P : Store -> Prop) (mws : list Middleware) (h : Handler) :
  (forall clock req st, P st -> P (snd (h clock req st))) ->
  forall clock req st, P st -> P (snd (route mws h clock req st)).
Proof.
  intros Hh clock req st HP. unfold route.
  destruct (chain mws req); [done | by apply Hh].
Qed.

Lemma route_failure_unchanged (mws : list Middleware) (h : Handler) :
  (forall clock req st, is_success (fst (h clock req st)) = false ->
                        snd (h clock req st) = st) ->
  forall clock req st, is_success (fst (route mws h clock req st)) = false ->
                       snd (route mws h clock req st) = st.
Proof.
  intros Hh clock req st. unfold route.
  destruct (chain mws req); [done | apply Hh].
Qed.

(** ** Authorization *)

Lemma authorize_verified `{JsonWebToken} roles req token decoded :
  extractTokenFromHeader (authorization req) = inr token ->
  verifyToken token = inr decoded ->
  authorize roles req =
    if bool_decide (0 < length roles)%nat
       && negb (bool_decide (elem_of (d_role decoded) roles))
    then inl (Failure 403 "INSUFFICIENT_PERMISSIONS"
                ("Access denied. Required roles: " +:+ Js.join ", " roles
                   +:+ ". Your role: " +:+ d_role decoded)
                [("requiredRoles", Texts roles); ("userRole", Text (d_role decoded))])
    else inr (asUser {| p_id := d_id decoded; p_role := d_role decoded;
                        p_name := d_name decoded |} req).
Proof. intros Hx Hv. unfold authorize. by rewrite Hx, Hv. Qed.

(** C10: with an empty list of allowed roles the role check is skipped:
    every request whose bearer token is extracted and verified goes on to the
    next handler, carrying the principal [{id, role, name}] of the token,
    whatever the role is. *)
Theorem authorize_no_roles_skips_role_check `{JsonWebToken} req token decoded :
  extractTokenFromHeader (authorization req) = inr token ->
  verifyToken token = inr decoded ->
  exists req',
    authorize [] req = inr req'
    /\ user req' = Some {| p_id := d_id decoded; p_role := d_role decoded;
                           p_name := d_name decoded |}
    /\ authorization req' = authorization req /\ param req' = param req
    /\ query req' = query req /\ content req' = content req.
Proof.
  intros Hx Hv. rewrite (authorize_verified [] req token decoded Hx Hv).
  simpl. eexists. split; [reflexivity | done].
Qed.

Lemma authorize_no_roles_skips_role_check_witness :
  exists req',
    @authorize sampleJwt [] (sampleReq (Some "Bearer token-u2") "p1" noQuery None)
      = inr req'
    /\ user req' = Some {| p_id := "u2"; p_role := "user"; p_name := "Jane Doe" |}.
Proof.
  destruct (@authorize_no_roles_skips_role_check sampleJwt
              (sampleReq (Some "Bearer token-u2") "p1" noQuery None) "token-u2"
              {| d_id := "u2"; d_role := "user"; d_name := "Jane Doe" |}
              eq_refl eq_refl) as (req' & Ha & Hu & _).
  exists req'. split; [exact Ha | exact Hu].
Defined.

(** ** Deleting a post *)

Lemma requireAdmin_verified `{JsonWebToken} req token decoded :
  extractTokenFromHeader (authorization req) = inr token ->
  verifyToken token = inr decoded ->
  requireAdmin req =
    if bool_decide (d_role decoded = "admin")
    then inr (asUser {| p_id := d_id decoded; p_role := d_role decoded;
                        p_name := d_name decoded |} req)
    else inl (Failure 403 "INSUFFICIENT_PERMISSIONS"
                ("Access denied. Required roles: admin. Your role: " +:+ d_role decoded)
                [("requiredRoles", Texts ["admin"]); ("userRole", Text (d_role decoded))]).
Proof.
  intros Hx Hv. unfold requireAdmin.
  rewrite (authorize_verified _ req token decoded Hx Hv).
  destruct (decide (d_role decoded = "admin")) as [Heq | Hne].
  - rewrite (bool_decide_eq_true_2 (elem_of _ _)) by (rewrite Heq; apply list_elem_of_here).
    rewrite (bool_decide_eq_true_2 (d_role decoded = _)) by done.
    by rewrite andb_false_r.
  - rewrite (bool_decide_eq_false_2 (elem_of _ _)).
    + by rewrite (bool_decide_eq_false_2 (d_role decoded = _)) by done.
    + intros Hin. apply list_elem_of_singleton in Hin. done.
Qed.

Lemma find_active_post_Some (ps : list Post.t) (id : string) (post : Post.t) :
  In post ps -> Post.id post = id -> Post.isDeleted post = false ->
  exists i p, list_find (fun q => Post.id q = id /\ Post.isDeleted q = false) ps
              = Some (i, p)
              /\ ps !! i = Some p /\ Post.id p = id /\ Post.isDeleted p = false.
Proof.
  intros Hin Hid Hdel.
  destruct (list_find _ ps) as [[i p] |] eqn:E.
  - apply list_find_Some in E as (Hl & [? ?] & _). by exists i, p.
  - apply list_find_None in E. rewrite Forall_forall in E.
    exfalso. apply (E post); [by apply list_elem_of_In | done].
Qed.

(** C1: on [DELETE /posts/:id] the role gate runs first.  A verified
    principal that is not an admin is answered 403 and nothing changes,
    whether or not the post is its own; an admin naming an existing post
    that is not deleted gets that post back, same id, and the delete has
    taken place: in the store that results the row of the post carries
    [isDeleted = true] and the time of the delete, with its id, author,
    content and creation time as before, and every other row, the accounts
    and the follow edges are as they were. *)
Theorem deletePostRoute_admin_only `{JsonWebToken} clock req st token decoded :
  extractTokenFromHeader (authorization req) = inr token ->
  verifyToken token = inr decoded ->
  (d_role decoded <> "admin" ->
   exists message details,
     deletePostRoute clock req st
     = (Failure 403 "INSUFFICIENT_PERMISSIONS" message details, st))
  /\ (d_role decoded = "admin" -> postIdsValid st ->
      forall post, In post (posts st) -> Post.id post = param req ->
                   Post.isDeleted post = false ->
      exists i p st',
        posts st !! i = Some p /\ Post.id p = param req /\ Post.isDeleted p = false
        /\ deletePostRoute clock req st
           = (Success 200 (Some "Post deleted successfully")
                (DeletedPost (param req) (Post.author p) (Post.content p)
                   (Post.created p) (clock 0%nat)), st')
        /\ st' = setPosts st (alter (markPostDeleted (clock 0%nat)) i (posts st))
        /\ posts st' !! i
           = Some {| Post.id := param req;
                     Post.author := Post.author p;
                     Post.content := Post.content p;
                     Post.created := Post.created p;
                     Post.isDeleted := true;
                     Post.updatedAt := clock 0%nat |}
        /\ length (posts st') = length (posts st)
        /\ (forall j, j <> i -> posts st' !! j = posts st !! j)
        /\ users st' = users st /\ follows st' = follows st).
Proof.
  intros Hx Hv. unfold deletePostRoute, route. simpl.
  rewrite (requireAdmin_verified req token decoded Hx Hv). split.
  - intros Hne. rewrite bool_decide_eq_false_2 by done. eauto.
  - intros Hadmin Hvalid post Hin Hid Hdel.
    rewrite bool_decide_eq_true_2 by done.
    assert (validPostId (param req)) as [Hne Hchars].
    { unfold postIdsValid in Hvalid. rewrite Forall_forall in Hvalid.
      rewrite <- Hid. apply Hvalid. by apply list_elem_of_In. }
    unfold validate, postIdSchema. simpl.
    rewrite bool_decide_eq_false_2 by done. rewrite Hchars.
    destruct (find_active_post_Some _ _ _ Hin Hid Hdel) as (i & p & Hf & Hl & Hpid & Hpdel).
    exists i, p, (setPosts st (alter (markPostDeleted (clock 0%nat)) i (posts st))).
    split; [done |]. split; [done |]. split; [done |]. split.
    { unfold deletePost. simpl. rewrite Hf. simpl.
      rewrite (bool_decide_eq_true_2 (d_role decoded = _)) by done. simpl.
      by rewrite Hpid. }
    split; [done |]. simpl. split.
    { rewrite list_lookup_alter_eq, Hl. simpl. unfold markPostDeleted.
      by rewrite Hpid. }
    split; [by rewrite length_alter |].
    split; [| done]. intros j Hj. by rewrite list_lookup_alter_ne.
Qed.

Lemma deletePostRoute_admin_only_witness :
  (exists message details,
      @deletePostRoute sampleJwt sampleClock
        (sampleReq (Some "Bearer token-u2") "p1" noQuery None) sampleStore
      = (Failure 403 "INSUFFICIENT_PERMISSIONS" message details, sampleStore))
  /\ (exists i p st',
         posts sampleStore !! i = Some p /\ Post.id p = "p1"
         /\ Post.isDeleted p = false
         /\ @deletePostRoute sampleJwt sampleClock
              (sampleReq (Some "Bearer token-u1") "p1" noQuery None) sampleStore
            = (Success 200 (Some "Post deleted successfully")
                 (DeletedPost "p1" (Post.author p) (Post.content p) (Post.created p)
                    (sampleClock 0%nat)), st')
         /\ posts st' !! i
            = Some {| Post.id := "p1";
                      Post.author := Post.author p;
                      Post.content := Post.content p;
                      Post.created := Post.created p;
                      Post.isDeleted := true;
                      Post.updatedAt := sampleClock 0%nat |}
         /\ length (posts st') = length (posts sampleStore)).
Proof.
  split.
  - apply (@deletePostRoute_admin_only sampleJwt sampleClock
             (sampleReq (Some "Bearer token-u2") "p1" noQuery None) sampleStore
             "token-u2" {| d_id := "u2"; d_role := "user"; d_name := "Jane Doe" |}
             eq_refl eq_refl).
    discriminate.
  - destruct (@deletePostRoute_admin_only sampleJwt sampleClock
                (sampleReq (Some "Bearer token-u1") "p1" noQuery None) sampleStore
                "token-u1" {| d_id := "u1"; d_role := "admin"; d_name := "John Doe" |}
                eq_refl eq_refl) as [_ Hadm].
    destruct (Hadm eq_refl) with (post := samplePost "p1" "u2" "Hello!" 1710093600000 false)
      as (i & p & st' & Hl & Hid & Hdel & Hr & _ & Hrow & Hlen & _).
    + repeat constructor; vm_compute; done.
    + simpl. auto.
    + reflexivity.
    + reflexivity.
    + exists i, p, st'.
      split; [exact Hl |]. split; [exact Hid |]. split; [exact Hdel |].
      split; [exact Hr |]. split; [exact Hrow | exact Hlen].
Defined.

(** ** Follow edges: counting the active edges of a pair *)

Section FilterAlter.
Context {A : Type} (P : A -> Prop) `{!forall x, Decision (P x)} (f : A -> A).

Lemma filter_alter_length_le (l : list A) (i : nat) :
  (forall x, P (f x) -> P x) ->
  (length (filter P (alter f i l)) <= length (filter P l))%nat.
Proof.
  intros Hf. revert i. induction l as [| y l IH]; intros [| i]; simpl; try done.
  - rewrite !filter_cons.
    destruct (decide (P (f y))) as [Hfy | Hfy], (decide (P y)) as [Hy | Hy];
      simpl; try lia.
    by apply Hf in Hfy.
  - rewrite !filter_cons. specialize (IH i). unfold alter in IH.
    destruct (decide (P y)); simpl; lia.
Qed.

Lemma filter_alter_length_drop (l : list A) (i : nat) (x : A) :
  l !! i = Some x -> P x -> ~ P (f x) ->
  length (filter P l) = S (length (filter P (alter f i l))).
Proof.
  revert i. induction l as [| y l IH]; intros [| i] Hl Hx Hfx; simpl in *; try done.
  - injection Hl as ->. rewrite !filter_cons.
    rewrite decide_True by done. by rewrite decide_False by done.
  - rewrite !filter_cons. specialize (IH i Hl Hx Hfx). unfold alter in IH.
    destruct (decide (P y)); simpl; lia.
Qed.
End FilterAlter.

Lemma filter_nil_find_None {A} (P : A -> Prop) `{!forall x, Decision (P x)} (l : list A) :
  filter P l = [] <-> list_find P l = None.
Proof.
  rewrite list_find_None. induction l as [| x l IH]; simpl.
  - split; [constructor | done].
  - rewrite filter_cons. destruct (decide (P x)) as [Hx | Hx].
    + split; [done |]. intros HF. by inversion HF.
    + rewrite IH. split; [by constructor |]. intros HF. by inversion HF.
Qed.

Lemma markFollowDeleted_not_active now a b f : ~ activeEdge a b (markFollowDeleted now f).
Proof. intros (_ & _ & Hd). done. Qed.

(** ** Unfollowing *)

(** C7: a successful unfollow soft-deletes the one active edge of the pair:
    the row stays where it was, now with [isDeleted = true] and
    [updatedAt] the current time, every other row and the other arrays are
    as before, the follower no longer follows, and unfollowing again is
    answered [NOT_FOLLOWING]. *)
Theorem unfollow_soft_deletes clock req st a message data st' :
  uniqueActive (follows st) ->
  user req = Some a ->
  unfollowUser clock req st = (Success 200 message data, st') ->
  exists i e,
    follows st !! i = Some e
    /\ activeEdge (p_id a) (param req) e
    /\ follows st' = <[i := markFollowDeleted (clock 0%nat) e]> (follows st)
    /\ follows st' !! i = Some {| Follow.id := Follow.id e;
                                  Follow.follower := p_id a;
                                  Follow.following := param req;
                                  Follow.created := Follow.created e;
                                  Follow.isDeleted := true;
                                  Follow.updatedAt := Some (clock 0%nat) |}
    /\ length (follows st') = length (follows st)
    /\ users st' = users st /\ posts st' = posts st
    /\ isFollowing (follows st') (p_id a) (param req) = false
    /\ forall clock',
         unfollowUser clock' req st'
         = (Failure 400 "NOT_FOLLOWING" "You are not following this user" [], st').
Proof.
  intros Huniq Huser. unfold unfollowUser. rewrite Huser.
  destruct (bool_decide (p_id a = param req)) eqn:Hself; [done |].
  destruct (findUser (users st) (param req)) as [target |] eqn:Htarget; [| done].
  destruct (list_find _ (follows st)) as [[i e] |] eqn:Hfind; [| done].
  intros [= <- <- <-].
  apply list_find_Some in Hfind as (Hl & Hact & _).
  assert (filter (activeEdge (p_id a) (param req))
            (alter (markFollowDeleted (clock 0%nat)) i (follows st)) = []) as Hnone.
  { apply length_zero_iff_nil.
    pose proof (filter_alter_length_drop (activeEdge (p_id a) (param req))
                  (markFollowDeleted (clock 0%nat)) _ _ _ Hl Hact
                  (markFollowDeleted_not_active _ _ _ _)) as Hlen.
    specialize (Huniq (p_id a) (param req)). lia. }
  exists i, e. simpl.
  assert (alter (markFollowDeleted (clock 0%nat)) i (follows st)
          = <[i := markFollowDeleted (clock 0%nat) e]> (follows st)) as Halter.
  { apply list_eq. intros j. destruct (decide (i = j)) as [<- | Hne].
    - rewrite list_lookup_alter_eq, Hl. simpl.
      rewrite list_lookup_insert_eq; [done | by eapply lookup_lt_Some].
    - rewrite list_lookup_alter_ne by done. by rewrite list_lookup_insert_ne by done. }
  destruct Hact as (Hfo & Hfi & Hdel).
  repeat split; try done.
  - rewrite Halter. rewrite list_lookup_insert_eq by (by eapply lookup_lt_Some).
    unfold markFollowDeleted. by rewrite Hfo, Hfi.
  - by rewrite length_alter.
  - unfold isFollowing. apply bool_decide_eq_false_2.
    rewrite Exists_exists. intros (x & Hin & Hx).
    assert (elem_of x (filter (activeEdge (p_id a) (param req))
                         (alter (markFollowDeleted (clock 0%nat)) i (follows st)))) as Hmem.
    { by apply list_elem_of_filter. }
    rewrite Hnone in Hmem. by apply elem_of_nil in Hmem.
  - intros clock'. rewrite Htarget.
    apply filter_nil_find_None in Hnone. by rewrite Hnone.
Qed.

(** A store whose active pairs are pairwise distinct has at most one
    active edge per pair; the left-hand side can be computed. *)
Lemma NoDup_uniqueActive (fs : list Follow.t) :
  NoDup (activePairs fs) -> uniqueActive fs.
Proof.
  unfold activePairs, uniqueActive.
  induction fs as [| f fs IH]; intros Hnd a b; [simpl; lia |].
  rewrite filter_cons in Hnd. rewrite filter_cons.
  destruct (decide (Follow.isDeleted f = false)) as [Hact | Hdel].
  - rewrite fmap_cons in Hnd. apply NoDup_cons in Hnd as [Hnotin Hnd].
    destruct (decide (activeEdge a b f)) as [(Hfo & Hfi & _) | Hno];
      [| by apply IH].
    assert (filter (activeEdge a b) fs = []) as ->; [| simpl; lia].
    destruct (filter (activeEdge a b) fs) as [| x xs] eqn:E; [done |].
    exfalso. apply Hnotin.
    assert (elem_of x (filter (activeEdge a b) fs)) as Hx
      by (rewrite E; apply list_elem_of_here).
    apply list_elem_of_filter in Hx as [(Hxo & Hxi & Hxd) Hin].
    apply list_elem_of_fmap. exists x. split; [by rewrite Hfo, Hfi, Hxo, Hxi |].
    by apply list_elem_of_filter.
  - rewrite decide_False; [by apply IH |].
    intros (_ & _ & Hd). done.
Qed.

Lemma unfollow_soft_deletes_witness :
  let req := asUser {| p_id := "u1"; p_role := "admin"; p_name := "John Doe" |}
               (sampleReq None "u2" noQuery None) in
  let st' := snd (unfollowUser sampleClock req sampleStore) in
  follows st' !! 0%nat
  = Some {| Follow.id := "f1"; Follow.follower := "u1"; Follow.following := "u2";
            Follow.created := 1707991200000; Follow.isDeleted := true;
            Follow.updatedAt := Some 1710600000000%Z |}
  /\ length (follows st') = 6%nat
  /\ isFollowing (follows st') "u1" "u2" = false
  /\ code_of (fst (unfollowUser sampleClock req st')) = Some "NOT_FOLLOWING".
Proof.
  intros req st'.
  assert (uniqueActive (follows sampleStore)) as Huniq.
  { apply NoDup_uniqueActive. apply (bool_decide_unpack _). vm_compute. exact I. }
  destruct (unfollow_soft_deletes sampleClock req sampleStore
              {| p_id := "u1"; p_role := "admin"; p_name := "John Doe" |}
              (Some "Successfully unfollowed Jane Doe") (Unfollowed "f1" "u1" "u2") st'
              Huniq eq_refl eq_refl)
    as (i & e & Hl & Hact & Hst & Hrow & Hlen & _ & _ & Hnot & Hagain).
  split; [| split; [| split]].
  - vm_compute. reflexivity.
  - exact Hlen.
  - exact Hnot.
  - by rewrite (Hagain sampleClock).
Defined.

(** ** What each handler does to the store *)

Ltac handler_cases :=
  repeat case_match; simplify_eq/=; try done.

Lemma getAllPosts_store clock req st : snd (getAllPosts clock req st) = st.
Proof. unfold getAllPosts. handler_cases. Qed.

Lemma getPostById_store clock req st : snd (getPostById clock req st) = st.
Proof. unfold getPostById. handler_cases. Qed.

Lemma getFollowers_store clock req st : snd (getFollowers clock req st) = st.
Proof. unfold getFollowers. handler_cases. Qed.

Lemma getFollowing_store clock req st : snd (getFollowing clock req st) = st.
Proof. unfold getFollowing. handler_cases. Qed.

Lemma checkFollowStatus_store clock req st : snd (checkFollowStatus clock req st) = st.
Proof. unfold checkFollowStatus. handler_cases. Qed.

Lemma getFollowStats_store clock req st : snd (getFollowStats clock req st) = st.
Proof. unfold getFollowStats. handler_cases. Qed.

Lemma deletePost_failure clock req st :
  is_success (fst (deletePost clock req st)) = false ->
  snd (deletePost clock req st) = st.
Proof. unfold deletePost. handler_cases. Qed.

Lemma createPost_failure clock req st :
  is_success (fst (createPost clock req st)) = false ->
  snd (createPost clock req st) = st.
Proof. unfold createPost. handler_cases. Qed.

Lemma followUser_failure clock req st :
  is_success (fst (followUser clock req st)) = false ->
  snd (followUser clock req st) = st.
Proof. unfold followUser. handler_cases. Qed.

Lemma unfollowUser_failure clock req st :
  is_success (fst (unfollowUser clock req st)) = false ->
  snd (unfollowUser clock req st) = st.
Proof. unfold unfollowUser. handler_cases. Qed.

Lemma deletePost_follows clock req st :
  follows (snd (deletePost clock req st)) = follows st.
Proof. unfold deletePost. handler_cases. Qed.

Lemma createPost_follows clock req st :
  follows (snd (createPost clock req st)) = follows st.
Proof. unfold createPost. handler_cases. Qed.

(** ** The follow invariants *)

Lemma followUser_invariant clock req st :
  followInvariant st -> followInvariant (snd (followUser clock req st)).
Proof.
  intros [Hself Huniq]. unfold followUser.
  destruct (user req) as [currentUser |]; [| done].
  case_bool_decide as Hne; [done |].
  destruct (findUser (users st) (param req)) as [targetUser |]; [| done].
  destruct (list_find _ (follows st)) as [[i e] |] eqn:Hfind; [done |].
  apply filter_nil_find_None in Hfind.
  split; simpl.
  - apply Forall_app. split; [done |]. by repeat constructor.
  - intros a b. rewrite filter_app, length_app, filter_cons, filter_nil.
    destruct (decide (activeEdge a b _)) as [(Hfo & Hfi & _) | Hno]; simpl in *.
    + subst a b. rewrite Hfind. simpl. lia.
    + specialize (Huniq a b). lia.
Qed.

Lemma unfollowUser_invariant clock req st :
  followInvariant st -> followInvariant (snd (unfollowUser clock req st)).
Proof.
  intros [Hself Huniq]. unfold unfollowUser.
  destruct (user req) as [currentUser |]; [| done].
  case_bool_decide as Hne; [done |].
  destruct (findUser (users st) (param req)) as [targetUser |]; [| done].
  destruct (list_find _ (follows st)) as [[i e] |] eqn:Hfind; [| done].
  split; simpl.
  - apply Forall_alter; [done |]. intros x _ _ Hd. done.
  - intros a b.
    pose proof (filter_alter_length_le (activeEdge a b)
                  (markFollowDeleted (clock 0%nat)) (follows st) i) as Hle.
    specialize (Huniq a b).
    etrans; [apply Hle | done].
    intros x Hx. by apply markFollowDeleted_not_active in Hx.
Qed.

Lemma followInvariant_same_follows st st' :
  follows st' = follows st -> followInvariant st -> followInvariant st'.
Proof. unfold followInvariant. by intros ->. Qed.

(** C8: from a store with no active self-edge and at most one active edge
    per pair, every endpoint - follow, unfollow, the two post mutations and
    all the reads - leaves a store with both properties. *)
Theorem follow_invariant_preserved `{JsonWebToken} `{FollowValidator}
    (e : Endpoint) clock req st :
  followInvariant st -> followInvariant (snd (dispatch e clock req st)).
Proof.
  revert clock req st.
  destruct e; simpl; apply route_preserves; intros clock req st Hinv.
  - by rewrite getAllPosts_store.
  - by rewrite getPostById_store.
  - apply (followInvariant_same_follows st); [apply createPost_follows | done].
  - apply (followInvariant_same_follows st); [apply deletePost_follows | done].
  - by apply followUser_invariant.
  - by apply unfollowUser_invariant.
  - by rewrite getFollowers_store.
  - by rewrite getFollowing_store.
  - by rewrite checkFollowStatus_store.
  - by rewrite getFollowStats_store.
Qed.

Lemma sampleStore_followInvariant : followInvariant sampleStore.
Proof.
  split.
  - apply (bool_decide_unpack _). vm_compute. exact I.
  - apply NoDup_uniqueActive. apply (bool_decide_unpack _). vm_compute. exact I.
Qed.

Lemma follow_invariant_preserved_witness :
  let st' := snd (@dispatch sampleJwt permissiveFollowValidator POST_follows_userId
                    sampleClock
                    (sampleReq (Some "Bearer token-u2") "u3" noQuery None)
                    sampleStore) in
  length (follows st') = 7%nat /\ followInvariant st'.
Proof.
  intros st'. split; [reflexivity |].
  apply (@follow_invariant_preserved sampleJwt permissiveFollowValidator).
  exact sampleStore_followInvariant.
Defined.

(** ** Failures change nothing *)

(** C9: an endpoint that answers with a failure leaves the three arrays as
    they were, and so does each mutating handler on its own; following or
    unfollowing oneself is refused with the self-follow, self-unfollow
    error and no change. *)
Theorem failure_leaves_store_unchanged `{JsonWebToken} `{FollowValidator} :
  (forall (e : Endpoint) clock req st,
      is_success (fst (dispatch e clock req st)) = false ->
      snd (dispatch e clock req st) = st)
  /\ (forall (h : Handler),
         In h [followUser; unfollowUser; createPost; deletePost] ->
         forall clock req st,
           is_success (fst (h clock req st)) = false -> snd (h clock req st) = st)
  /\ (forall clock req st u,
         user req = Some u -> p_id u = param req ->
         followUser clock req st
         = (Failure 400 "SELF_FOLLOW_ERROR" "You cannot follow yourself" [], st)
         /\ unfollowUser clock req st
            = (Failure 400 "SELF_UNFOLLOW_ERROR" "You cannot unfollow yourself" [], st)).
Proof.
  split; [| split].
  - intros e. destruct e; simpl; apply route_failure_unchanged; intros clock req st Hf.
    + apply getAllPosts_store.
    + apply getPostById_store.
    + by apply createPost_failure.
    + by apply deletePost_failure.
    + by apply followUser_failure.
    + by apply unfollowUser_failure.
    + apply getFollowers_store.
    + apply getFollowing_store.
    + apply checkFollowStatus_store.
    + apply getFollowStats_store.
  - intros h Hin clock req st Hf. simpl in Hin.
    destruct Hin as [<- | [<- | [<- | [<- | []]]]].
    + by apply followUser_failure.
    + by apply unfollowUser_failure.
    + by apply createPost_failure.
    + by apply deletePost_failure.
  - intros clock req st u Hu Hid. unfold followUser, unfollowUser.
    rewrite Hu. by rewrite bool_decide_eq_true_2 by done.
Qed.

Lemma failure_leaves_store_unchanged_witness :
  snd (@dispatch sampleJwt permissiveFollowValidator DELETE_posts_id sampleClock
         (sampleReq (Some "Bearer token-u2") "p1" noQuery None) sampleStore)
  = sampleStore
  /\ followUser sampleClock
       (asUser {| p_id := "u2"; p_role := "user"; p_name := "Jane Doe" |}
          (sampleReq None "u2" noQuery None)) sampleStore
     = (Failure 400 "SELF_FOLLOW_ERROR" "You cannot follow yourself" [], sampleStore).
Proof.
  destruct (@failure_leaves_store_unchanged sampleJwt permissiveFollowValidator)
    as (Hdispatch & _ & Hself).
  split.
  - apply Hdispatch. reflexivity.
  - apply (Hself sampleClock _ sampleStore
             {| p_id := "u2"; p_role := "user"; p_name := "Jane Doe" |});
      reflexivity.
Defined.

(** ** Pagination *)

Lemma lt_min_50 (x : Js.num) :
  Js.lt (Js.min x (Js.Num 50)) (Js.Num 1) = Js.lt x (Js.Num 1).
Proof.
  destruct x as [| | | z]; simpl; try done.
  apply bool_decide_ext. lia.
Qed.

Lemma getFollowers_status clock req st :
  In (status_of (fst (getFollowers clock req st))) [200; 404; 500]%nat.
Proof. unfold getFollowers. handler_cases; simpl; auto. Qed.

Lemma getFollowing_status clock req st :
  In (status_of (fst (getFollowing clock req st))) [200; 404; 500]%nat.
Proof. unfold getFollowing. handler_cases; simpl; auto. Qed.

Lemma getFollowers_code clock req st :
  In (code_of (fst (getFollowers clock req st)))
     [None; Some "USER_NOT_FOUND"; Some "GET_FOLLOWERS_INTERNAL_ERROR"].
Proof. unfold getFollowers. handler_cases; simpl; auto. Qed.

Lemma getFollowing_code clock req st :
  In (code_of (fst (getFollowing clock req st)))
     [None; Some "USER_NOT_FOUND"; Some "GET_FOLLOWING_INTERNAL_ERROR"].
Proof. unfold getFollowing. handler_cases; simpl; auto. Qed.

Lemma validate_code schema req resp :
  validate schema req = inl resp -> code_of resp = Some "VALIDATION_ERROR".
Proof. unfold validate. destruct (schema req); [by intros [= <-] | done]. Qed.

Lemma authorize_code `{JsonWebToken} roles req resp :
  authorize roles req = inl resp ->
  In (code_of resp) [Some "AUTH_HEADER_ERROR"; Some "TOKEN_VERIFICATION_ERROR";
                     Some "INSUFFICIENT_PERMISSIONS"].
Proof.
  unfold authorize. handler_cases; intros; simplify_eq; simpl; auto.
Qed.

(** C2, as the code has it: [GET /posts] refuses a page or a limit below 1
    with [INVALID_PAGINATION] whatever the store holds; the followers and
    following handlers have no such check, they answer 200, 404 or 500
    from the data, and on their routes no answer is [INVALID_PAGINATION]
    whatever the query schema of the route is. *)
Theorem pagination_guard :
  (forall clock req st,
      Js.lt (parseParam 1 (page (query req))) (Js.Num 1) = true
      \/ Js.lt (parseParam 10 (limit (query req))) (Js.Num 1) = true ->
      getPostsRoute clock req st = (invalidPagination, st))
  /\ (forall clock req st,
         In (status_of (fst (getFollowers clock req st))) [200; 404; 500]%nat
         /\ In (status_of (fst (getFollowing clock req st))) [200; 404; 500]%nat)
  /\ (forall (J : JsonWebToken) (V : FollowValidator) clock req st,
         code_of (fst (followersRoute clock req st)) <> Some "INVALID_PAGINATION"
         /\ code_of (fst (followingRoute clock req st)) <> Some "INVALID_PAGINATION").
Proof.
  split; [| split].
  - intros clock req st Hbad. unfold getPostsRoute, route, getAllPosts. simpl.
    rewrite lt_min_50.
    destruct Hbad as [-> | ->]; [done | by rewrite orb_true_r].
  - intros. split; [apply getFollowers_status | apply getFollowing_status].
  - intros J V clock req st. unfold followersRoute, followingRoute, route.
    cbn [chain].
    destruct (requireAuth req) as [resp | req1] eqn:Hauth.
    { apply authorize_code in Hauth. cbn [fst].
      split; intros Hc; rewrite Hc in Hauth; simpl in Hauth;
        intuition discriminate. }
    destruct (validate userIdAndFollowQuerySchema req1) as [resp | req2] eqn:Hval.
    { apply validate_code in Hval. cbn [fst]. rewrite Hval. split; congruence. }
    pose proof (getFollowers_code clock req2 st) as Hs1.
    pose proof (getFollowing_code clock req2 st) as Hs2.
    split; intros Hc; [rewrite Hc in Hs1 | rewrite Hc in Hs2]; simpl in *;
      intuition discriminate.
Qed.

Lemma pagination_guard_witness :
  getPostsRoute sampleClock (sampleReq None "all" (withPage (Some "0") None) None)
    sampleStore = (invalidPagination, sampleStore)
  /\ getPostsRoute sampleClock (sampleReq None "all" (withPage None (Some "0")) None)
       sampleStore = (invalidPagination, sampleStore).
Proof.
  destruct pagination_guard as (Hposts & _ & _).
  split; apply Hposts; [left | right]; reflexivity.
Defined.

(** The followers handler answers page 0 with an empty page, and the
    following handler answers limit 0 with an empty page of infinitely many
    pages: neither is refused. *)
Lemma followers_page_zero_is_answered :
  Js.lt (parseParam 1 (Some "0")) (Js.Num 1) = true
  /\ getFollowers sampleClock
       (sampleReq None "u2" (withPage (Some "0") None) None) sampleStore
     = (Success 200 None
          (FollowersPage []
             {| fp_page := Js.Num 0; fp_limit := Js.Num 10; fp_total := 2;
                fp_pages := Js.Num 1 |}), sampleStore)
  /\ getFollowing sampleClock
       (sampleReq None "u2" (withPage None (Some "0")) None) sampleStore
     = (Success 200 None
          (FollowingPage []
             {| fp_page := Js.Num 1; fp_limit := Js.Num 0; fp_total := 1;
                fp_pages := Js.PInf |}), sampleStore).
Proof. repeat split; vm_compute; reflexivity. Qed.

(** ** Edges without an account *)

Lemma joinAccounts_dangling us counterpart rows f :
  In f rows -> findUser us (counterpart f) = None ->
  joinAccounts us counterpart rows = None.
Proof.
  intros Hin Hnone. unfold joinAccounts.
  destruct (mapM _ rows) as [k |] eqn:E; [| done].
  assert (is_Some (mapM (withDetails us counterpart) rows)) as Hsome by eauto.
  apply mapM_is_Some in Hsome. rewrite Forall_forall in Hsome.
  specialize (Hsome f (proj2 (list_elem_of_In _ _) Hin)).
  unfold compose, withDetails in Hsome. rewrite Hnone in Hsome.
  by destruct Hsome.
Qed.

(** One active edge to the account whose follower cannot be found makes
    [getFollowers] answer 500, and likewise [getFollowing]. *)
Lemma getFollowers_dangling clock req st target f :
  findUser (users st) (param req) = Some target ->
  In f (follows st) ->
  Follow.following f = param req -> Follow.isDeleted f = false ->
  findUser (users st) (Follow.follower f) = None ->
  getFollowers clock req st
  = (internalError "GET_FOLLOWERS_INTERNAL_ERROR"
       "Internal server error while fetching followers", st).
Proof.
  intros Ht Hin Hfo Hdel Hnone. unfold getFollowers. rewrite Ht.
  rewrite (joinAccounts_dangling _ _ _ f); [done | | done].
  apply list_elem_of_In, list_elem_of_filter. split; [done | by apply list_elem_of_In].
Qed.

Lemma getFollowing_dangling clock req st target f :
  findUser (users st) (param req) = Some target ->
  In f (follows st) ->
  Follow.follower f = param req -> Follow.isDeleted f = false ->
  findUser (users st) (Follow.following f) = None ->
  getFollowing clock req st
  = (internalError "GET_FOLLOWING_INTERNAL_ERROR"
       "Internal server error while fetching following", st).
Proof.
  intros Ht Hin Hfo Hdel Hnone. unfold getFollowing. rewrite Ht.
  rewrite (joinAccounts_dangling _ _ _ f); [done | | done].
  apply list_elem_of_In, list_elem_of_filter. split; [done | by apply list_elem_of_In].
Qed.

(** The handlers themselves do not drop an edge whose counterpart is not
    an account: were the active edges [f7] (from the unknown [u9] to [u2])
    and [f8] (from [u2] to the unknown [u9]) in the store, the followers and
    the following query for [u2] would both be answered 500.  No request
    makes such a store, see [edgesResolve]. *)
Example dangling_edge_fails_the_query :
  getFollowers sampleClock (sampleReq None "u2" noQuery None) danglingStore
  = (Failure 500 "GET_FOLLOWERS_INTERNAL_ERROR"
       "Internal server error while fetching followers" [], danglingStore)
  /\ getFollowing sampleClock (sampleReq None "u2" noQuery None) danglingStore
     = (Failure 500 "GET_FOLLOWING_INTERNAL_ERROR"
          "Internal server error while fetching following" [], danglingStore).
Proof. split; vm_compute; reflexivity. Qed.

(** ** Sorting and slicing *)

Section SortFacts.
Context {A : Type} (cmp : A -> A -> Z).

Lemma insert_sorted_Permutation (x : A) (l : list A) :
  Permutation (Js.insert_sorted cmp x l) (x :: l).
Proof.
  induction l as [| y l IH]; simpl; [done |].
  case_bool_decide; [done |].
  rewrite IH. apply perm_swap.
Qed.

Lemma sort_Permutation (l : list A) : Permutation (Js.sort cmp l) l.
Proof.
  induction l as [| x l IH]; simpl; [done |].
  rewrite insert_sorted_Permutation. by constructor.
Qed.

Context (R : A -> A -> Prop).
Hypothesis cmp_le : forall x y, (cmp x y <= 0)%Z -> R x y.
Hypothesis cmp_gt : forall x y, ~ (cmp x y <= 0)%Z -> R y x.

Lemma insert_sorted_Sorted (x : A) (l : list A) :
  Sorted R l -> Sorted R (Js.insert_sorted cmp x l).
Proof.
  induction l as [| y l IH]; simpl; intros Hs.
  - by repeat constructor.
  - case_bool_decide as Hc.
    + constructor; [done |]. constructor. by apply cmp_le.
    + apply Sorted_inv in Hs as [Hs Hhd]. constructor; [by apply IH |].
      destruct l as [| z l]; simpl.
      * constructor. by apply cmp_gt.
      * case_bool_decide; constructor; [by apply cmp_gt | by inversion Hhd].
Qed.

Lemma sort_Sorted (l : list A) : Sorted R (Js.sort cmp l).
Proof.
  induction l as [| x l IH]; simpl; [constructor |].
  by apply insert_sorted_Sorted.
Qed.
End SortFacts.

Lemma slice_subseteq {A} (from to : Js.num) (l : list A) x :
  In x (Js.slice from to l) -> In x l.
Proof.
  unfold Js.slice. rewrite <- !list_elem_of_In. intros Hx.
  by apply subseteq_take, subseteq_drop in Hx.
Qed.

(** ** Reads and soft-deleted rows *)

Lemma find_ignores_deleted {A} (P Q : A -> Prop)
    `{!forall x, Decision (P x)} `{!forall x, Decision (Q x)} (l : list A) :
  snd <$> list_find (fun x => P x /\ Q x) (filter Q l)
  = snd <$> list_find (fun x => P x /\ Q x) l.
Proof.
  induction l as [| x l IH]; [done |].
  rewrite filter_cons. destruct (decide (Q x)) as [Hq | Hq]; simpl.
  - destruct (decide (P x /\ Q x)); [done |].
    destruct (list_find _ (filter Q l)), (list_find _ l); simpl in *; congruence.
  - rewrite decide_False by tauto.
    destruct (list_find _ (filter Q l)), (list_find _ l); simpl in *; congruence.
Qed.

Lemma filter_ignores_deleted {A} (P Q : A -> Prop)
    `{!forall x, Decision (P x)} `{!forall x, Decision (Q x)} (l : list A) :
  filter (fun x => P x /\ Q x) (filter Q l) = filter (fun x => P x /\ Q x) l.
Proof.
  rewrite list_filter_filter. apply list_filter_iff. tauto.
Qed.

Lemma listedPosts_purge q ps :
  listedPosts q (filter (fun post => Post.isDeleted post = false) ps)
  = listedPosts q ps.
Proof.
  unfold listedPosts.
  assert (filter (fun post => Post.isDeleted post = false)
            (filter (fun post => Post.isDeleted post = false) ps)
          = filter (fun post => Post.isDeleted post = false) ps) as ->; [| done].
  rewrite list_filter_filter. apply list_filter_iff. tauto.
Qed.

Lemma listedPosts_not_deleted q ps post :
  In post (listedPosts q ps) -> In post ps /\ Post.isDeleted post = false.
Proof.
  unfold listedPosts. rewrite <- !list_elem_of_In. rewrite sort_Permutation.
  destruct (author q) as [[| c a] |]; rewrite ?list_elem_of_filter; tauto.
Qed.

Lemma getAllPosts_purge clock req st :
  fst (getAllPosts clock req st) = fst (getAllPosts clock req (purge st)).
Proof.
  unfold getAllPosts, purge. simpl. rewrite listedPosts_purge.
  by case_match.
Qed.

Lemma getPostById_purge clock req st :
  fst (getPostById clock req st) = fst (getPostById clock req (purge st)).
Proof.
  unfold getPostById, purge. simpl.
  pose proof (find_ignores_deleted (fun post => Post.id post = param req)
                (fun post => Post.isDeleted post = false) (posts st)) as Hf.
  destruct (list_find _ (filter _ (posts st))) as [[] |],
           (list_find _ (posts st)) as [[] |]; simpl in *; congruence.
Qed.

Lemma getFollowStats_purge clock req st :
  fst (getFollowStats clock req st) = fst (getFollowStats clock req (purge st)).
Proof.
  unfold getFollowStats, purge. simpl.
  rewrite (filter_ignores_deleted (fun f => Follow.following f = param req)).
  rewrite (filter_ignores_deleted (fun f => Follow.follower f = param req)).
  by case_match.
Qed.

(** The documents the feed sorts: one per follow document of the viewer,
    post of the followed account and account of that id.  No stage looks at
    [isDeleted]. *)
Lemma joined_spec st userId f p a :
  In (f, p, a) (Db.joined st userId)
  <-> In f (follows st) /\ Follow.follower f = userId
      /\ In p (posts st) /\ Post.author p = Follow.following f
      /\ In a (users st) /\ User.id a = Post.author p.
Proof.
  unfold Db.joined, Db.lookupAuthor, Db.lookupPosts, Db.matchFollower.
  rewrite <- !list_elem_of_In. rewrite list_elem_of_bind. split.
  - intros ([f' p'] & Ha & Hd).
    apply list_elem_of_fmap in Ha as (a' & [= -> -> ->] & Ha).
    apply list_elem_of_filter in Ha as [Hid Ha]. simpl in Hid.
    apply list_elem_of_bind in Hd as (f'' & Hp & Hf).
    apply list_elem_of_fmap in Hp as (p'' & [= -> ->] & Hp).
    apply list_elem_of_filter in Hp as [Hau Hp].
    apply list_elem_of_filter in Hf as [Hfo Hf]. done.
  - intros (Hf & Hfo & Hp & Hau & Ha & Hid).
    exists (f, p). split.
    + apply list_elem_of_fmap. exists a. split; [done |].
      by apply list_elem_of_filter.
    + apply list_elem_of_bind. exists f. split.
      * apply list_elem_of_fmap. exists p. split; [done |].
        by apply list_elem_of_filter.
      * by apply list_elem_of_filter.
Qed.

(** C4, as the code has it: the posts list, the post lookup and the follow
    statistics answer as if the soft-deleted rows were not there, show no
    such row, and leave the store as it is; the feed pipeline has no test of
    [isDeleted]: it sorts every post of every account a follow document of
    the viewer points to. *)
Theorem reads_hide_soft_deleted clock req st :
  (fst (getAllPosts clock req st) = fst (getAllPosts clock req (purge st))
   /\ snd (getAllPosts clock req st) = st)
  /\ (fst (getPostById clock req st) = fst (getPostById clock req (purge st))
      /\ snd (getPostById clock req st) = st)
  /\ (fst (getFollowStats clock req st) = fst (getFollowStats clock req (purge st))
      /\ snd (getFollowStats clock req st) = st)
  /\ (forall s m views pagination,
         fst (getAllPosts clock req st) = Success s m (PostsPage views pagination) ->
         Forall (fun v => exists post, In post (posts st)
                                       /\ Post.isDeleted post = false
                                       /\ v = postView post) views)
  /\ (forall s m post,
         fst (getPostById clock req st) = Success s m (PostDetail post) ->
         In post (posts st) /\ Post.isDeleted post = false
         /\ Post.id post = param req)
  /\ (forall userId e,
         In e (Db.projected st userId)
         <-> exists f p a,
               e = Db.project (f, p, a)
               /\ In f (follows st) /\ Follow.follower f = userId
               /\ In p (posts st) /\ Post.author p = Follow.following f
               /\ In a (users st) /\ User.id a = Post.author p).
Proof.
  split; [split; [apply getAllPosts_purge | apply getAllPosts_store] |].
  split; [split; [apply getPostById_purge | apply getPostById_store] |].
  split; [split; [apply getFollowStats_purge | apply getFollowStats_store] |].
  split; [| split].
  - intros s m views pagination. unfold getAllPosts.
    case_match; [done |]. simpl. intros [= <- <- <- <-].
    apply Forall_forall. intros v Hv.
    apply list_elem_of_fmap in Hv as (post & -> & Hin).
    apply list_elem_of_In, slice_subseteq, listedPosts_not_deleted in Hin.
    exists post. tauto.
  - intros s m post. unfold getPostById.
    destruct (list_find _ (posts st)) as [[i p] |] eqn:E; [| done].
    simpl. intros [= <- <- <-].
    apply list_find_Some in E as (Hl & [Hid Hdel] & _).
    split; [| done]. apply list_elem_of_In. by eapply list_elem_of_lookup_2.
  - intros userId e. unfold Db.projected. rewrite <- list_elem_of_In. split.
    + intros Hin. apply list_elem_of_fmap in Hin as ([[f p] a] & -> & Hin).
      apply list_elem_of_In, joined_spec in Hin. exists f, p, a. tauto.
    + intros (f & p & a & -> & Hrest).
      apply list_elem_of_fmap. exists (f, p, a). split; [done |].
      apply list_elem_of_In, joined_spec. tauto.
Qed.

Lemma reads_hide_soft_deleted_witness :
  In (status_of (fst (getPostById sampleClock (sampleReq None "p3" noQuery None)
                        softDeletedStore))) [404%nat]
  /\ (In (samplePost "p1" "u2" "Hello!" 1710093600000 false) (posts softDeletedStore)
      /\ Post.isDeleted (samplePost "p1" "u2" "Hello!" 1710093600000 false) = false
      /\ Post.id (samplePost "p1" "u2" "Hello!" 1710093600000 false) = "p1").
Proof.
  destruct (reads_hide_soft_deleted sampleClock (sampleReq None "p3" noQuery None)
              softDeletedStore) as (_ & [Hget _] & _).
  destruct (reads_hide_soft_deleted sampleClock (sampleReq None "p1" noQuery None)
              softDeletedStore) as (_ & _ & _ & _ & Hpost & _).
  split.
  - rewrite Hget. simpl. auto.
  - apply (Hpost 200%nat None). reflexivity.
Defined.

(** ** The feed *)

Lemma newestFirst_trans : Transitive Db.newestFirst.
Proof. unfold Db.newestFirst. intros a b c Hab Hbc. lia. Qed.

(** The run with the stable sort is one of the answers of the pipeline, so
    the pipeline always has an answer. *)
Lemma executeAggregation_run st userId :
  Db.getFollowingsPosts st userId (Db.executeAggregation st userId).
Proof.
  eexists. split; [| reflexivity]. split.
  - symmetry. apply sort_Permutation.
  - apply sort_Sorted; unfold Db.newestFirst; intros x y; lia.
Qed.

Lemma followedSet_nil_joined st userId :
  Db.followedSet st userId = [] -> Db.projected st userId = [].
Proof.
  unfold Db.followedSet, Db.projected, Db.joined. intros Hnil.
  apply fmap_nil_inv in Hnil. by rewrite Hnil.
Qed.

(** C5, as the code has it: every answer of the feed pipeline has at most
    10 entries, each projected from a post whose author a follow document of
    the viewer points to, newest first; when the viewer follows nobody the
    answer is the empty list; and the pipeline always has an answer.  The
    order among posts of one instant is not fixed by the pipeline. *)
Theorem feed_bounded_sorted st userId :
  Db.getFollowingsPosts st userId (Db.executeAggregation st userId)
  /\ forall result,
       Db.getFollowingsPosts st userId result ->
       (length result <= 10)%nat
       /\ StronglySorted Db.newestFirst result
       /\ Forall (fun e => exists f p a,
                     e = Db.project (f, p, a) /\ In p (posts st)
                     /\ In (Post.author p) (Db.followedSet st userId)) result
       /\ (Db.followedSet st userId = [] -> result = []).
Proof.
  split; [apply executeAggregation_run |].
  intros result (sorted & [Hperm Hsorted] & ->). repeat split.
  - rewrite length_take. lia.
  - apply (Sorted_StronglySorted _ (Transitive0 := newestFirst_trans)) in Hsorted.
    rewrite <- (take_drop 10 sorted) in Hsorted.
    by apply StronglySorted_app_1_l in Hsorted.
  - apply Forall_forall. intros e He.
    apply subseteq_take in He. rewrite <- Hperm in He.
    apply list_elem_of_fmap in He as ([[f p] a] & -> & Hin).
    apply list_elem_of_In, joined_spec in Hin
      as (Hf & Hfo & Hp & Hau & _).
    exists f, p, a. repeat split; [done |].
    rewrite Hau. apply list_elem_of_In, list_elem_of_fmap. exists f.
    split; [done |]. apply list_elem_of_filter. split; [done |].
    by apply list_elem_of_In.
  - intros Hnil. apply followedSet_nil_joined in Hnil. rewrite Hnil in Hperm.
    apply Permutation_nil in Hperm. by rewrite Hperm.
Qed.

Lemma feed_bounded_sorted_witness :
  (length (Db.executeAggregation sampleStore "u1") <= 10)%nat
  /\ StronglySorted Db.newestFirst (Db.executeAggregation sampleStore "u1")
  /\ Db.executeAggregation sampleStore "u9" = [].
Proof.
  destruct (feed_bounded_sorted sampleStore "u1") as [Hrun Hall].
  destruct (Hall _ Hrun) as (Hlen & Hsorted & _ & _).
  destruct (feed_bounded_sorted sampleStore "u9") as [Hrun9 Hall9].
  destruct (Hall9 _ Hrun9) as (_ & _ & _ & Hnil).
  split; [exact Hlen | split; [exact Hsorted |]].
  apply Hnil. reflexivity.
Defined.

(** On the sample store the feed of [u1] may list [p1] before [p5], two
    posts of the same instant: not by descending id. *)
Lemma feed_tie_not_by_id :
  let result :=
    [ {| Db._id := "p3"; Db.content := "Great day!";
         Db.created := 1710253200000; Db.authorName := "Jim Doe" |};
      {| Db._id := "p2"; Db.content := "Hey Bob";
         Db.created := 1710148500000; Db.authorName := "Jane Doe" |};
      {| Db._id := "p1"; Db.content := "Hello!";
         Db.created := 1710093600000; Db.authorName := "Jane Doe" |};
      {| Db._id := "p5"; Db.content := "Hello!";
         Db.created := 1710093600000; Db.authorName := "Jane Doe" |} ] in
  Db.getFollowingsPosts sampleStore "u1" result
  /\ ~ Sorted newestFirstThenId result.
Proof.
  intros result. split.
  - change result with (Db.executeAggregation sampleStore "u1").
    apply executeAggregation_run.
  - intros Hs.
    do 2 apply Sorted_inv in Hs as [Hs _].
    apply Sorted_inv in Hs as [_ Hhd].
    apply HdRel_inv in Hhd. unfold newestFirstThenId in Hhd. simpl in Hhd.
    destruct Hhd as [Hlt | [_ Hcmp]]; [lia | by apply Hcmp].
Qed.

(** On the store where [p3] of [u3] is soft-deleted, the feed of [u1], who
    follows [u3], shows [p3] in first place. *)
Lemma feed_shows_soft_deleted_post :
  let result :=
    [ {| Db._id := "p3"; Db.content := "Great day!";
         Db.created := 1710253200000; Db.authorName := "Jim Doe" |};
      {| Db._id := "p2"; Db.content := "Hey Bob";
         Db.created := 1710148500000; Db.authorName := "Jane Doe" |};
      {| Db._id := "p1"; Db.content := "Hello!";
         Db.created := 1710093600000; Db.authorName := "Jane Doe" |} ] in
  In (samplePost "p3" "u3" "Great day!" 1710253200000 true) (posts softDeletedStore)
  /\ Db.getFollowingsPosts softDeletedStore "u1" result
  /\ forall other, Db.getFollowingsPosts softDeletedStore "u1" other -> other = result.
Proof.
  intros result. split; [simpl; tauto |]. split.
  - change result with (Db.executeAggregation softDeletedStore "u1").
    apply executeAggregation_run.
  - intros other (sorted & [Hperm Hsorted] & ->).
    assert (length sorted = 3%nat) as Hlen by (by rewrite <- Hperm).
    rewrite take_ge by lia.
    assert (Permutation (Db.projected softDeletedStore "u1") result) as Hres.
    { change result
        with (Js.sort (fun a b => (Db.created b - Db.created a)%Z)
                (Db.projected softDeletedStore "u1")).
      symmetry. apply sort_Permutation. }
    apply (Sorted_unique_strong Db.newestFirst (Transitive0 := newestFirst_trans));
      [| done | | by rewrite <- Hperm].
    + intros x y Hx Hy Hxy Hyx. unfold Db.newestFirst in *.
      assert (Db.created x = Db.created y) as Heq by lia.
      rewrite <- Hperm, Hres in Hx. clear -Hx Hy Heq.
      subst result. rewrite !elem_of_cons, elem_of_nil in Hx, Hy.
      destruct Hx as [-> | [-> | [-> | []]]], Hy as [-> | [-> | [-> | []]]];
        simpl in Heq; done.
    + repeat constructor; unfold Db.newestFirst; simpl; lia.
Qed.

(** ** Creating a post *)

Lemma requireUserOrAdmin_verified `{JsonWebToken} req token decoded :
  extractTokenFromHeader (authorization req) = inr token ->
  verifyToken token = inr decoded ->
  In (d_role decoded) ["user"; "admin"] ->
  requireUserOrAdmin req
  = inr (asUser {| p_id := d_id decoded; p_role := d_role decoded;
                   p_name := d_name decoded |} req).
Proof.
  intros Hx Hv Hrole. unfold requireUserOrAdmin.
  rewrite (authorize_verified _ req token decoded Hx Hv).
  rewrite (bool_decide_eq_true_2 (elem_of _ _)) by (by apply list_elem_of_In).
  by rewrite andb_false_r.
Qed.

Lemma trimStart_length s : (String.length (Js.trimStart s) <= String.length s)%nat.
Proof.
  induction s as [| c s IH]; simpl; [done |].
  destruct (Js.isWhiteSpace c); simpl; lia.
Qed.

Lemma trimEnd_length s : (String.length (Js.trimEnd s) <= String.length s)%nat.
Proof.
  induction s as [| c s IH]; simpl; [done |].
  destruct (Js.trimEnd s); [destruct (Js.isWhiteSpace c) |]; simpl in *; lia.
Qed.

Lemma trim_length s : (String.length (Js.trim s) <= String.length s)%nat.
Proof.
  unfold Js.trim. etrans; [apply trimEnd_length | apply trimStart_length].
Qed.

(** C6, as the code has it: the schema measures the content as it was
    sent.  For an authenticated user or admin, an empty content and a
    content of more than 1000 characters are refused, each with its own
    message, and nothing is stored; a content of 1 to 1000 characters that
    is not all white space is stored trimmed, in a new row at the end, with
    the id [p] followed by the clock's milliseconds and the clock's time as
    [created] and [updatedAt]; no other content is accepted. *)
Theorem createPost_validates_raw_content `{JsonWebToken}
    clock req st token decoded raw :
  extractTokenFromHeader (authorization req) = inr token ->
  verifyToken token = inr decoded ->
  In (d_role decoded) ["user"; "admin"] ->
  content req = Some raw ->
  let newPost :=
    {| Post.id := "p" +:+ Js.decimal (clock 0%nat);
       Post.author := d_id decoded;
       Post.content := Js.trim raw;
       Post.created := clock 1%nat;
       Post.isDeleted := false;
       Post.updatedAt := clock 2%nat |} in
  (raw = EmptyString ->
   createPostRoute clock req st
   = (Failure 400 "VALIDATION_ERROR" "Post content cannot be empty" [], st))
  /\ ((1000 < String.length raw)%nat ->
      createPostRoute clock req st
      = (Failure 400 "VALIDATION_ERROR"
           "Post content cannot exceed 1000 characters" [], st))
  /\ ((1 <= String.length raw <= 1000)%nat -> Js.trim raw <> EmptyString ->
      createPostRoute clock req st
      = (Success 201 (Some "Post created successfully") (CreatedPost (postView newPost)),
         setPosts st (posts st ++ [newPost]))
      /\ (1 <= String.length (Post.content newPost) <= 1000)%nat)
  /\ (is_success (fst (createPostRoute clock req st)) = true ->
      (1 <= String.length raw <= 1000)%nat).
Proof.
  intros Hx Hv Hrole Hraw newPost.
  unfold createPostRoute, route. cbn [chain].
  rewrite (requireUserOrAdmin_verified req token decoded Hx Hv Hrole).
  unfold validate, createPostSchema. cbn [content asUser]. rewrite Hraw.
  split; [| split; [| split]].
  - intros ->. done.
  - intros Hlong. rewrite bool_decide_eq_false_2 by (intros ->; simpl in *; lia).
    by rewrite bool_decide_eq_true_2 by done.
  - intros Hlen Hink.
    rewrite bool_decide_eq_false_2 by (intros ->; simpl in *; lia).
    rewrite bool_decide_eq_false_2 by lia.
    unfold createPost. cbn [content user asUser]. rewrite Hraw.
    split; [done |]. pose proof (trim_length raw) as Hle. simpl.
    destruct (Js.trim raw) eqn:E; [done | simpl in *; lia].
  - case_bool_decide as Hempty; [done |].
    case_bool_decide as Hlong; [done |]. intros _.
    destruct raw; [done | simpl in *; lia].
Qed.

Lemma createPost_validates_raw_content_witness :
  @createPostRoute sampleJwt sampleClock
    (sampleReq (Some "Bearer token-u2") "new" noQuery (Some "  Hello there  "))
    sampleStore
  = (Success 201 (Some "Post created successfully")
       (CreatedPost {| pv_id := "p1710600000000"; pv_author := "u2";
                       pv_content := "Hello there"; pv_created := 1710600000001 |}),
     setPosts sampleStore
       (samplePosts
          ++ [ {| Post.id := "p1710600000000"; Post.author := "u2";
                  Post.content := "Hello there"; Post.created := 1710600000001;
                  Post.isDeleted := false; Post.updatedAt := 1710600000002 |} ])).
Proof.
  destruct (@createPost_validates_raw_content sampleJwt sampleClock
              (sampleReq (Some "Bearer token-u2") "new" noQuery
                 (Some "  Hello there  "))
              sampleStore "token-u2"
              {| d_id := "u2"; d_role := "user"; d_name := "Jane Doe" |}
              "  Hello there  " eq_refl eq_refl (or_introl eq_refl) eq_refl)
    as (_ & _ & Hok & _).
  destruct Hok as [Hok _]; [simpl; lia | discriminate |].
  exact Hok.
Defined.

(** A content of 1000 letters and one trailing space is 1000 characters
    long once trimmed, and is refused as too long. *)
Lemma createPost_counts_untrimmed_length :
  let raw := repeatChar 1000 "a" +:+ " " in
  String.length (Js.trim raw) = 1000%nat
  /\ @createPostRoute sampleJwt sampleClock
       (sampleReq (Some "Bearer token-u2") "new" noQuery (Some raw)) sampleStore
     = (Failure 400 "VALIDATION_ERROR"
          "Post content cannot exceed 1000 characters" [], sampleStore).
Proof. split; vm_compute; reflexivity. Qed.

(** A content of white space only passes the schema and is stored as the
    empty text. *)
Example whitespace_only_post_is_stored :
  fst (@createPostRoute sampleJwt sampleClock
         (sampleReq (Some "Bearer token-u2") "new" noQuery (Some "   ")) sampleStore)
  = Success 201 (Some "Post created successfully")
      (CreatedPost {| pv_id := "p1710600000000"; pv_author := "u2";
                      pv_content := EmptyString; pv_created := 1710600000001 |}).
Proof. vm_compute. reflexivity. Qed.

(** ** The ids of stored posts *)

Lemma string_of_uint_idChars (d : Decimal.uint) :
  allChars isIdChar (NilEmpty.string_of_uint d) = true.
Proof. induction d; simpl; done. Qed.

Lemma decimal_idChars (z : Z) : allChars isIdChar (Js.decimal z) = true.
Proof.
  unfold Js.decimal, NilZero.string_of_int, NilZero.string_of_uint.
  destruct (Z.to_int z) as [d | d]; destruct d; simpl; try done;
    apply string_of_uint_idChars.
Qed.

Lemma createPost_id_valid clock req st :
  postIdsValid st -> postIdsValid (snd (createPost clock req st)).
Proof.
  unfold postIdsValid, createPost. intros Hv.
  destruct (content req), (user req); simpl; try done.
  apply Forall_app. split; [done |]. constructor; [| constructor].
  split; [done |]. simpl. apply decimal_idChars.
Qed.

Lemma deletePost_id_valid clock req st :
  postIdsValid st -> postIdsValid (snd (deletePost clock req st)).
Proof.
  unfold postIdsValid, deletePost. intros Hv. handler_cases.
  apply Forall_alter; [done |]. by intros x _ Hx.
Qed.

Lemma postIdsValid_same_posts st st' :
  posts st' = posts st -> postIdsValid st -> postIdsValid st'.
Proof. unfold postIdsValid. by intros ->. Qed.

Lemma followUser_posts clock req st : posts (snd (followUser clock req st)) = posts st.
Proof. unfold followUser. handler_cases. Qed.

Lemma unfollowUser_posts clock req st : posts (snd (unfollowUser clock req st)) = posts st.
Proof. unfold unfollowUser. handler_cases. Qed.

(** The ids of the stored posts stay within what [postIdSchema] accepts:
    every post made by [createPost] gets such an id. *)
Lemma dispatch_preserves_postIdsValid `{JsonWebToken} `{FollowValidator}
    (e : Endpoint) clock req st :
  postIdsValid st -> postIdsValid (snd (dispatch e clock req st)).
Proof.
  revert clock req st.
  destruct e; simpl; apply route_preserves; intros clock req st Hv.
  - by rewrite getAllPosts_store.
  - by rewrite getPostById_store.
  - by apply createPost_id_valid.
  - by apply deletePost_id_valid.
  - apply (postIdsValid_same_posts st); [apply followUser_posts | done].
  - apply (postIdsValid_same_posts st); [apply unfollowUser_posts | done].
  - by rewrite getFollowers_store.
  - by rewrite getFollowing_store.
  - by rewrite checkFollowStatus_store.
  - by rewrite getFollowStats_store.
Qed.

(** ** The JavaScript helpers on sample inputs *)

Example parseInt_rounds :
  Js.parseInt "9007199254740992" = Js.Num 9007199254740992
  /\ Js.parseInt "9007199254740993" = Js.Num 9007199254740992
  /\ Js.parseInt "9007199254740995" = Js.Num 9007199254740996
  /\ Js.parseInt "-9007199254740993" = Js.Num (-9007199254740992)
  /\ Js.parseInt "123456789012345678901234567890"
     = Js.Num 123456789012345677877719597056
  /\ Js.nearestDouble (10 ^ 400) = Js.PInf
  /\ Js.nearestDouble (2 ^ 1024 - 2 ^ 970) = Js.PInf
  /\ Js.nearestDouble (2 ^ 1024 - 2 ^ 970 - 1) = Js.Num ((2 ^ 53 - 1) * 2 ^ 971).
Proof. vm_compute. repeat split. Qed.

Example parseInt_examples :
  Js.parseInt "0" = Js.Num 0 /\ Js.parseInt " -12px" = Js.Num (-12)
  /\ Js.parseInt "0x1f" = Js.Num 31 /\ Js.parseInt "abc" = Js.NaN
  /\ Js.parseInt EmptyString = Js.NaN /\ Js.parseInt "2.9" = Js.Num 2.
Proof. repeat split. Qed.

Example trim_examples :
  Js.trim "  a b  " = "a b" /\ Js.trim "   " = EmptyString /\ Js.trim "x" = "x".
Proof. repeat split. Qed.

Example split_examples :
  Js.split " " "Bearer abc" = ["Bearer"; "abc"]
  /\ Js.split " " "Bearer  abc" = ["Bearer"; EmptyString; "abc"]
  /\ Js.split " " "Bearer" = ["Bearer"].
Proof. repeat split. Qed.

Example slice_examples :
  Js.slice (Js.Num (-10)) (Js.Num 0) [1; 2; 3]%nat = []
  /\ Js.slice (Js.Num 1) (Js.Num 3) [1; 2; 3; 4]%nat = [2; 3]%nat
  /\ Js.slice Js.NaN Js.NaN [1; 2]%nat = [].
Proof. repeat split. Qed.

Example sort_is_stable :
  Js.sort (fun a b => (a.1 - b.1)%Z) [(2, "a"); (1, "b"); (2, "c"); (1, "d")]%Z
  = [(1, "b"); (1, "d"); (2, "a"); (2, "c")]%Z.
Proof. reflexivity. Qed.

Example extractTokenFromHeader_examples :
  extractTokenFromHeader (Some "Bearer abc") = inr "abc"
  /\ extractTokenFromHeader None = inl "Authorization header missing"
  /\ extractTokenFromHeader (Some "Basic abc") = inl "Invalid authorization header format"
  /\ extractTokenFromHeader (Some "Bearer a b") = inl "Invalid authorization header format".
Proof. repeat split. Qed.

Example getAllPosts_sample :
  fst (getAllPosts sampleClock (sampleReq None "all" (withPage (Some "1") (Some "2")) None)
         sampleStore)
  = Success 200 None
      (PostsPage
         [ {| pv_id := "p3"; pv_author := "u3"; pv_content := "Great day!";
              pv_created := 1710253200000 |};
           {| pv_id := "p2"; pv_author := "u2"; pv_content := "Hey Bob";
              pv_created := 1710148500000 |} ]
         {| currentPage := Js.Num 1; totalPages := Js.Num 2; totalPosts := 4;
            postsPerPage := Js.Num 2; hasNextPage := true; hasPrevPage := false |}).
Proof. vm_compute. reflexivity. Qed.

(** ** Splitting the authorization header *)

Lemma split_nonnil (sep : ascii) (s : string) : Js.split sep s <> [].
Proof.
  destruct s as [| c s]; simpl; [done |].
  case_bool_decide; [done |]. by destruct (Js.split sep s).
Qed.

Lemma split_join (sep : ascii) (s : string) :
  Js.join (String sep EmptyString) (Js.split sep s) = s.
Proof.
  induction s as [| c s IH]; [done |]. simpl.
  pose proof (split_nonnil sep s) as Hne.
  destruct (Js.split sep s) as [| w ws]; [done |].
  case_bool_decide as Hc.
  - subst c. simpl in *. by rewrite IH.
  - destruct ws; simpl in *; by rewrite <- IH.
Qed.

Lemma split_parts_sepfree (sep : ascii) (s : string) :
  Forall (fun w => allChars (fun c => negb (bool_decide (c = sep))) w = true)
         (Js.split sep s).
Proof.
  induction s as [| c s IH]; simpl; [by repeat constructor |].
  case_bool_decide as Hc.
  - by constructor.
  - pose proof (split_nonnil sep s) as Hne.
    destruct (Js.split sep s) as [| w ws]; [done |].
    apply Forall_cons in IH as [Hw Hws]. constructor; [| done].
    simpl. rewrite Hw. by rewrite bool_decide_eq_false_2.
Qed.

Lemma split_sepfree (sep : ascii) (s : string) :
  allChars (fun c => negb (bool_decide (c = sep))) s = true -> Js.split sep s = [s].
Proof.
  induction s as [| c s IH]; simpl; [done |].
  case_bool_decide; [done |]. simpl. intros Hs. by rewrite (IH Hs).
Qed.

Lemma split_app_sep (sep : ascii) (a b : string) :
  allChars (fun c => negb (bool_decide (c = sep))) a = true ->
  Js.split sep (a +:+ String sep b) = a :: Js.split sep b.
Proof.
  induction a as [| c a IH]; simpl.
  - intros _. by rewrite bool_decide_eq_true_2.
  - case_bool_decide; [done |]. simpl. intros Ha. by rewrite (IH Ha).
Qed.

(** X1: [extractTokenFromHeader] returns a token exactly for the headers
    [Bearer], one space, and a token without a space, and then returns that
    token; a missing or empty header is reported as missing, and every
    other header as malformed, a header with a second space such as
    [Bearer a b] included. *)
Theorem extractTokenFromHeader_spec :
  (forall h t,
      extractTokenFromHeader (Some h) = inr t
      <-> h = "Bearer " +:+ t /\ hasNoSpace t)
  /\ extractTokenFromHeader None = inl "Authorization header missing"
  /\ extractTokenFromHeader (Some EmptyString) = inl "Authorization header missing"
  /\ (forall h, h <> EmptyString ->
                ~ (exists t, h = "Bearer " +:+ t /\ hasNoSpace t) ->
                extractTokenFromHeader (Some h)
                = inl "Invalid authorization header format").
Proof.
  assert (forall h t, extractTokenFromHeader (Some h) = inr t ->
                      h = "Bearer " +:+ t /\ hasNoSpace t) as Hfwd.
  { intros h t. unfold extractTokenFromHeader.
    destruct h as [| c h]; [done |].
    pose proof (split_join " " (String c h)) as Hj.
    pose proof (split_parts_sepfree " " (String c h)) as Hp.
    destruct (Js.split " " (String c h)) as [| scheme [| token [| x xs]]]; try done.
    case_bool_decide as Hs; [| done]. intros [= <-]. subst scheme.
    split; [by rewrite <- Hj |].
    apply Forall_cons in Hp as [_ Hp]. by apply Forall_cons in Hp as [Hp _]. }
  split; [| split; [done | split; [done |]]].
  - intros h t. split; [apply Hfwd |].
    intros [-> Ht]. unfold extractTokenFromHeader.
    change ("Bearer " +:+ t) with ("Bearer" +:+ String " " t).
    assert (Js.split " " ("Bearer" +:+ String " " t) = ["Bearer"; t]) as Hsplit.
    { rewrite split_app_sep by done. f_equal. by apply split_sepfree. }
    rewrite Hsplit. done.
  - intros h Hne Hnot.
    destruct (extractTokenFromHeader (Some h)) as [m | t] eqn:E.
    + unfold extractTokenFromHeader in E. destruct h as [| c h]; [done |].
      destruct (Js.split " " (String c h)) as [| scheme [| token [| x xs]]];
        try (by injection E as <-).
      case_bool_decide; [done | by injection E as <-].
    + apply Hfwd in E. destruct Hnot. by exists t.
Qed.

Lemma extractTokenFromHeader_spec_witness :
  extractTokenFromHeader (Some "Bearer token-u1") = inr "token-u1"
  /\ extractTokenFromHeader (Some "Basic token-u1")
     = inl "Invalid authorization header format"
  /\ extractTokenFromHeader (Some "Bearer a b")
     = inl "Invalid authorization header format"
  /\ extractTokenFromHeader (Some "Bearer")
     = inl "Invalid authorization header format".
Proof.
  destruct extractTokenFromHeader_spec as (Hiff & _ & _ & Hbad).
  split; [| split; [| split]].
  - apply Hiff. split; reflexivity.
  - apply Hbad; [discriminate |]. intros (t & Heq & _). discriminate.
  - apply Hbad; [discriminate |]. intros (t & Heq & Hns).
    vm_compute in Heq. injection Heq as <-. vm_compute in Hns. discriminate.
  - apply Hbad; [discriminate |]. intros (t & Heq & _). discriminate.
Defined.

(** ** The role gate across role lists *)

(** X2: widening a non-empty list of allowed roles never shuts out a
    request: what [authorize roles] lets through, [authorize roles'] lets
    through with the same principal whenever [roles] is not empty and every
    role of [roles] is in [roles'].  In particular what [requireAdmin]
    accepts, [requireAuth] accepts. *)
Theorem authorize_roles_monotone `{JsonWebToken} roles roles' req req' :
  roles <> [] ->
  (forall r, In r roles -> In r roles') ->
  authorize roles req = inr req' ->
  authorize roles' req = inr req'.
Proof.
  intros Hne Hsub. unfold authorize.
  destruct (extractTokenFromHeader (authorization req)) as [m | token]; [done |].
  destruct (verifyToken token) as [m | decoded]; [done |].
  destruct roles as [| r0 roles0]; [done |].
  rewrite (bool_decide_eq_true_2 (0 < _)%nat) by (simpl; lia).
  case_bool_decide as Hin; [| done]. simpl. intros [= <-].
  rewrite (bool_decide_eq_true_2 (elem_of _ roles')).
  - by rewrite andb_false_r.
  - apply list_elem_of_In, Hsub. by apply list_elem_of_In.
Qed.

Lemma authorize_roles_monotone_witness :
  @requireAuth sampleJwt (sampleReq (Some "Bearer token-u1") "p1" noQuery None)
  = inr (asUser {| p_id := "u1"; p_role := "admin"; p_name := "John Doe" |}
           (sampleReq (Some "Bearer token-u1") "p1" noQuery None)).
Proof.
  apply (@authorize_roles_monotone sampleJwt ["admin"] ["user"; "admin"]).
  - discriminate.
  - intros r [<- | []]. simpl. auto.
  - reflexivity.
Defined.

(** X3: a 401 of the gate does not depend on the roles asked for, and a 403
    is only given to a token that is in order: when [authorize roles]
    answers 401, [authorize roles'] gives the same answer for every other
    list; when it answers 403, the same request passes [authorize []], and
    the answer names the roles asked for and the role of the token. *)
Theorem authorize_401_before_403 `{JsonWebToken} roles req resp :
  authorize roles req = inl resp ->
  (status_of resp = 401%nat /\ forall roles', authorize roles' req = inl resp)
  \/ (status_of resp = 403%nat
      /\ exists req' role,
           authorize [] req = inr req'
           /\ p_role <$> user req' = Some role
           /\ ~ In role roles
           /\ exists message,
                resp = Failure 403 "INSUFFICIENT_PERMISSIONS" message
                         [("requiredRoles", Texts roles); ("userRole", Text role)]).
Proof.
  unfold authorize.
  destruct (extractTokenFromHeader (authorization req)) as [m | token].
  { intros [= <-]. left. by split. }
  destruct (verifyToken token) as [m | decoded].
  { intros [= <-]. left. by split. }
  destruct (bool_decide (0 < length roles)%nat
            && negb (bool_decide (elem_of (d_role decoded) roles))) eqn:Hgate;
    [| done].
  intros [= <-]. right. split; [done |].
  apply andb_true_iff in Hgate as [_ Hnot].
  apply negb_true_iff, bool_decide_eq_false in Hnot.
  eexists _, (d_role decoded). simpl. split; [done |]. split; [done |].
  split; [by rewrite <- list_elem_of_In | eauto].
Qed.

Lemma authorize_401_before_403_witness :
  (forall roles',
      @authorize sampleJwt roles' (sampleReq (Some "Bearer token-old") "p1" noQuery None)
      = inl (Failure 401 "TOKEN_VERIFICATION_ERROR" "Token expired" []))
  /\ status_of (Failure 403 "INSUFFICIENT_PERMISSIONS"
                  "Access denied. Required roles: admin. Your role: user"
                  [("requiredRoles", Texts ["admin"]); ("userRole", Text "user")])
     = 403%nat.
Proof.
  split.
  - destruct (@authorize_401_before_403 sampleJwt ["admin"]
                (sampleReq (Some "Bearer token-old") "p1" noQuery None)
                (Failure 401 "TOKEN_VERIFICATION_ERROR" "Token expired" []) eq_refl)
      as [[_ Hall] | [Habs _]]; [exact Hall | discriminate].
  - destruct (@authorize_401_before_403 sampleJwt ["admin"]
                (sampleReq (Some "Bearer token-u2") "p1" noQuery None)
                _ eq_refl) as [[Habs _] | [Hs _]]; [discriminate | exact Hs].
Defined.

(** ** Optional authentication *)

(** X4: [optionalAuth] never answers itself; it hands on the request with
    the principal [authorize []] would attach when that gate would let the
    request through, and the untouched request otherwise. *)
Theorem optionalAuth_agrees_with_authorize `{JsonWebToken} req :
  optionalAuth req
  = inr match authorize [] req with
        | inr req' => req'
        | inl _ => req
        end.
Proof.
  unfold optionalAuth, authorize.
  destruct (authorization req) as [[| c h] |] eqn:Hauth; try done.
  destruct (extractTokenFromHeader (Some (String c h))) as [m | token]; [done |].
  by destruct (verifyToken token).
Qed.

(** ** Logging in *)

Lemma authenticateUser_Some `{Bcrypt} us email password u :
  authenticateUser us email password = Some u ->
  In u us /\ User.email u = email
  /\ compareSync password (User.password u) = true.
Proof.
  unfold authenticateUser.
  destruct (list_find _ us) as [[i v] |] eqn:E; simpl; [| done].
  destruct (compareSync password (User.password v)) eqn:Hc; [| done].
  intros [= <-]. apply list_find_Some in E as (Hl & He & _).
  split; [| done]. apply list_elem_of_In. by eapply list_elem_of_lookup_2.
Qed.

(** X5: what one logs in as is what the gate sees.  When signing and
    verifying agree (a signed payload verifies to its id, role and name, and
    a token has no space in it), a successful login names an account of the
    store with the given e-mail whose password matches, and the token it
    returns, sent as a bearer token, passes every gate whose role list is
    empty or holds the account's role, with that account's id, role and name
    as principal. *)
Theorem login_then_authorize `{Bcrypt} `{JwtSigner} `{JsonWebToken}
    clock email password st status message id name role token expiresIn roles req :
  (forall pl t,
      jwt_sign pl = Some t ->
      hasNoSpace t
      /\ jwt_verify t = inr {| d_id := pl_id pl; d_role := pl_role pl;
                               d_name := pl_name pl |}) ->
  login clock email password st
  = AuthSuccess status message (LoginData id name role token expiresIn) ->
  authorization req = Some ("Bearer " +:+ token) ->
  roles = [] \/ In role roles ->
  (exists u, In u (users st) /\ User.email u = email
             /\ compareSync password (User.password u) = true
             /\ User.id u = id /\ User.name u = name /\ User.role u = role)
  /\ authorize roles req
     = inr (asUser {| p_id := id; p_role := role; p_name := name |} req).
Proof.
  intros Hjwt Hlogin Hauth Hroles. unfold login in Hlogin.
  destruct (authenticateUser (users st) email password) as [u |] eqn:Hu; [| done].
  unfold generateToken in Hlogin.
  destruct (jwt_sign _) as [t |] eqn:Hsign; [| done].
  injection Hlogin as <- <- <- <- <- <- <-.
  apply authenticateUser_Some in Hu as (Hin & Hemail & Hpw).
  split; [by exists u |].
  destruct (Hjwt _ _ Hsign) as [Hnospace Hverify]. simpl in Hverify.
  assert (extractTokenFromHeader (authorization req) = inr t) as Hx.
  { rewrite Hauth. unfold extractTokenFromHeader.
    change ("Bearer " +:+ t) with ("Bearer" +:+ String " " t).
    assert (Js.split " " ("Bearer" +:+ String " " t) = ["Bearer"; t]) as ->.
    { rewrite split_app_sep by done. f_equal. by apply split_sepfree. }
    done. }
  rewrite (authorize_verified roles req t _ Hx
             ltac:(unfold verifyToken; rewrite Hverify; reflexivity)).
  simpl. destruct Hroles as [-> | Hin'].
  - done.
  - rewrite (bool_decide_eq_true_2 (elem_of _ roles)) by (by apply list_elem_of_In).
    by rewrite andb_false_r.
Qed.

Lemma login_then_authorize_witness :
  @authorize sampleJwt ["admin"]
    (sampleReq (Some "Bearer token-u1") "p1" noQuery None)
  = inr (asUser {| p_id := "u1"; p_role := "admin"; p_name := "John Doe" |}
           (sampleReq (Some "Bearer token-u1") "p1" noQuery None)).
Proof.
  refine (proj2 (@login_then_authorize sampleBcrypt sampleSigner sampleJwt
                   sampleClock "john.doe@example.com" "password" loginStore
                   200 (Some "Login successful") "u1" "John Doe" "admin" "token-u1"
                   "24h" ["admin"]
                   (sampleReq (Some "Bearer token-u1") "p1" noQuery None)
                   _ eq_refl eq_refl (or_intror (or_introl eq_refl)))).
  intros pl t. simpl.
  case_bool_decide as H1.
  - destruct H1 as (-> & -> & ->). intros [= <-]. split; reflexivity.
  - case_bool_decide as H2; [| discriminate].
    destruct H2 as (-> & -> & ->). intros [= <-]. split; reflexivity.
Defined.

Lemma authenticateUser_flags `{Bcrypt} (flags : User.t -> bool * bool) us email password :
  authenticateUser ((fun u => setFlags (flags u).1 (flags u).2 u) <$> us) email password
  = (fun u => setFlags (flags u).1 (flags u).2 u) <$> authenticateUser us email password.
Proof.
  unfold authenticateUser.
  induction us as [| u us IH]; [done |].
  rewrite fmap_cons. cbn [list_find]. simpl.
  destruct (decide (User.email u = email)) as [He | He]; simpl.
  - by destruct (compareSync password (User.password u)).
  - destruct (list_find _ (_ <$> us)) as [[i v] |],
             (list_find _ us) as [[j w] |]; simpl in *; try done.
Qed.

(** X6: logging in looks at the e-mail and the password only: whatever the
    [isActive] and [isDeleted] flags of the accounts are set to, [login]
    gives the same answer, token included. *)
Theorem login_ignores_account_flags `{Bcrypt} `{JwtSigner}
    (flags : User.t -> bool * bool) clock email password st :
  login clock email password
    (setUsers st ((fun u => setFlags (flags u).1 (flags u).2 u) <$> users st))
  = login clock email password st.
Proof.
  unfold login. cbn [users setUsers]. rewrite authenticateUser_flags.
  by destruct (authenticateUser (users st) email password).
Qed.

(** X7: on [GET /profile] the answer is the principal of the token and
    nothing of the store: a token of a user or an admin gets 200 with its
    own id, role and name; a request the gate refuses is answered with that
    refusal, a 401 or a 403, and no other failure exists, so the handler's
    own 500 cannot be reached through the route. *)
Theorem profileRoute_returns_token_principal `{JsonWebToken} req :
  (forall token decoded,
      extractTokenFromHeader (authorization req) = inr token ->
      verifyToken token = inr decoded ->
      In (d_role decoded) ["user"; "admin"] ->
      profileRoute req
      = AuthSuccess 200 None
          (ProfileData {| p_id := d_id decoded; p_role := d_role decoded;
                          p_name := d_name decoded |}))
  /\ (forall answer,
         profileRoute req = AuthFailure answer ->
         requireAuth req = inl answer
         /\ In (status_of answer) [401; 403]%nat)
  /\ (forall answer,
         requireAuth req = inl answer -> profileRoute req = AuthFailure answer)
  /\ (forall req',
         requireAuth req = inr req' ->
         exists token decoded,
           extractTokenFromHeader (authorization req) = inr token
           /\ verifyToken token = inr decoded
           /\ In (d_role decoded) ["user"; "admin"]).
Proof.
  split; [| split; [| split]].
  - intros token decoded Hx Hv Hrole. unfold profileRoute. cbn [chain].
    unfold requireAuth. rewrite (authorize_verified _ req token decoded Hx Hv).
    rewrite (bool_decide_eq_true_2 (elem_of _ _)) by (by apply list_elem_of_In).
    by rewrite andb_false_r.
  - intros answer. unfold profileRoute. cbn [chain].
    destruct (requireAuth req) as [r | req'] eqn:Hgate.
    + intros [= <-]. split; [done |].
      unfold requireAuth, authorize in Hgate.
      repeat case_match; simplify_eq; simpl; auto.
    + unfold requireAuth, authorize in Hgate.
      repeat case_match; simplify_eq. done.
  - intros answer Hgate. unfold profileRoute. cbn [chain]. by rewrite Hgate.
  - intros req'. unfold requireAuth, authorize.
    destruct (extractTokenFromHeader (authorization req)) as [m | token];
      [intros [=] |].
    destruct (verifyToken token) as [m | decoded] eqn:Hv; [intros [=] |].
    destruct (bool_decide (d_role decoded ∈ ["user"; "admin"])) eqn:Hrole;
      [| intros [=]].
    intros _. exists token, decoded. split; [done |]. split; [done |].
    apply bool_decide_eq_true in Hrole. by apply list_elem_of_In.
Qed.

Lemma profileRoute_returns_token_principal_witness :
  @profileRoute sampleJwt (sampleReq (Some "Bearer token-u2") "me" noQuery None)
  = AuthSuccess 200 None
      (ProfileData {| p_id := "u2"; p_role := "user"; p_name := "Jane Doe" |})
  /\ @profileRoute sampleJwt (sampleReq None "me" noQuery None)
     = AuthFailure (Failure 401 "AUTH_HEADER_ERROR" "Authorization header missing" [])
  /\ @profileRoute sampleJwt (sampleReq (Some "Bearer token-old") "me" noQuery None)
     = AuthFailure (Failure 401 "TOKEN_VERIFICATION_ERROR" "Token expired" []).
Proof.
  split; [| split].
  - apply (proj1 (@profileRoute_returns_token_principal sampleJwt
                    (sampleReq (Some "Bearer token-u2") "me" noQuery None))
             "token-u2" {| d_id := "u2"; d_role := "user"; d_name := "Jane Doe" |});
      [reflexivity | reflexivity | simpl; auto].
  - apply (proj1 (proj2 (proj2 (@profileRoute_returns_token_principal sampleJwt
                                  (sampleReq None "me" noQuery None))))).
    reflexivity.
  - apply (proj1 (proj2 (proj2 (@profileRoute_returns_token_principal sampleJwt
                                  (sampleReq (Some "Bearer token-old") "me" noQuery
                                     None))))).
    reflexivity.
Defined.

(** ** The owner rule of [deletePost] *)



(** ** Deleting twice, and reading back what was created *)

Lemma markPostDeleted_not_active now id p :
  ~ (Post.id (markPostDeleted now p) = id /\ Post.isDeleted (markPostDeleted now p) = false).
Proof. intros [_ Hd]. done. Qed.

(** X9: when at most one post that is not deleted carries the id, a
    successful delete makes the post unreachable: deleting it again and
    looking it up are both answered [POST_NOT_FOUND], with the store as the
    first delete left it. *)
Theorem deletePost_twice_not_found clock req st status message data st' :
  activeIdUnique (posts st) (param req) ->
  deletePost clock req st = (Success status message data, st') ->
  forall clock' req',
    param req' = param req ->
    deletePost clock' req' st'
    = (Failure 404 "POST_NOT_FOUND" "Post not found" [], st')
    /\ getPostById clock' req' st'
       = (Failure 404 "POST_NOT_FOUND" "Post not found" [], st').
Proof.
  intros Huniq. unfold deletePost at 1. simpl.
  destruct (list_find _ (posts st)) as [[i p] |] eqn:Hfind; [| done].
  destruct (user req) as [u |]; [| done].
  destruct (_ && _); [done |]. intros [= <- <- <- <-].
  apply list_find_Some in Hfind as (Hl & Hact & _).
  assert (filter (fun q => Post.id q = param req /\ Post.isDeleted q = false)
            (alter (markPostDeleted (clock 0%nat)) i (posts st)) = []) as Hnone.
  { apply length_zero_iff_nil.
    pose proof (filter_alter_length_drop
                  (fun q => Post.id q = param req /\ Post.isDeleted q = false)
                  (markPostDeleted (clock 0%nat)) _ _ _ Hl Hact
                  (markPostDeleted_not_active _ _ _)) as Hlen.
    unfold activeIdUnique in Huniq. lia. }
  apply filter_nil_find_None in Hnone.
  intros clock' req' Hparam. unfold deletePost, getPostById. simpl.
  rewrite Hparam, Hnone. done.
Qed.

Lemma deletePost_twice_not_found_witness :
  let req := asUser {| p_id := "u1"; p_role := "admin"; p_name := "John Doe" |}
               (sampleReq None "p2" noQuery None) in
  let st' := snd (deletePost sampleClock req sampleStore) in
  fst (getPostById sampleClock req st')
  = Failure 404 "POST_NOT_FOUND" "Post not found" [].
Proof.
  intros req st'.
  destruct (deletePost_twice_not_found sampleClock req sampleStore 200
              (Some "Post deleted successfully")
              (DeletedPost "p2" "u2" "Hey Bob" 1710148500000 (sampleClock 0%nat)) st')
    with (clock' := sampleClock) (req' := req) as [_ Hget].
  - unfold activeIdUnique. simpl. vm_compute. lia.
  - reflexivity.
  - reflexivity.
  - by rewrite Hget.
Defined.

(** X10: a post that was created can be read back under the id the answer
    gives, with the trimmed content, as long as no post that is not deleted
    already carried that id (ids come from the clock's milliseconds). *)
Theorem createPost_then_getPostById clock req st status message view st' :
  createPost clock req st = (Success status message (CreatedPost view), st') ->
  idFree (posts st) (pv_id view) ->
  forall clock' req',
    param req' = pv_id view ->
    getPostById clock' req' st'
    = (Success 200 None
         (PostDetail {| Post.id := pv_id view;
                        Post.author := pv_author view;
                        Post.content := pv_content view;
                        Post.created := pv_created view;
                        Post.isDeleted := false;
                        Post.updatedAt := clock 2%nat |}), st')
    /\ exists raw, content req = Some raw /\ pv_content view = Js.trim raw.
Proof.
  unfold createPost.
  destruct (content req) as [raw |] eqn:Hraw; [| done].
  destruct (user req) as [u |]; [| done].
  intros [= <- <- <- <-] Hfree clock' req' Hparam.
  split; [| by exists raw].
  unfold getPostById. simpl. rewrite Hparam.
  rewrite list_find_app_r by (by apply list_find_None).
  simpl. by rewrite decide_True by done.
Qed.

Lemma createPost_then_getPostById_witness :
  let req := asUser {| p_id := "u2"; p_role := "user"; p_name := "Jane Doe" |}
               (sampleReq None "new" noQuery (Some " hi ")) in
  let st' := snd (createPost sampleClock req sampleStore) in
  fst (getPostById sampleClock (sampleReq None "p1710600000000" noQuery None) st')
  = Success 200 None
      (PostDetail {| Post.id := "p1710600000000"; Post.author := "u2";
                     Post.content := "hi"; Post.created := 1710600000001;
                     Post.isDeleted := false; Post.updatedAt := 1710600000002 |}).
Proof.
  intros req st'.
  destruct (createPost_then_getPostById sampleClock req sampleStore 201
              (Some "Post created successfully")
              {| pv_id := "p1710600000000"; pv_author := "u2"; pv_content := "hi";
                 pv_created := 1710600000001 |} st' eq_refl)
    with (clock' := sampleClock)
         (req' := sampleReq None "p1710600000000" noQuery None) as [Hget _].
  - unfold idFree. repeat constructor; intros [Hid _]; discriminate.
  - reflexivity.
  - by rewrite Hget.
Defined.

(** ** Pages of [getAllPosts] *)

Lemma slice_nat {A} (s n : Z) (l : list A) :
  (0 <= s)%Z -> (0 <= n)%Z ->
  Js.slice (Js.Num s) (Js.add (Js.Num s) (Js.Num n)) l
  = take (Z.to_nat n) (drop (Z.to_nat s) l).
Proof.
  intros Hs Hn. unfold Js.slice. simpl.
  rewrite !bool_decide_eq_false_2 by lia.
  destruct (decide (Z.to_nat s <= length l)%nat) as [Hle | Hgt].
  - rewrite (Nat.min_l (Z.to_nat s)) by lia.
    destruct (decide (Z.to_nat (s + n) <= length l)%nat).
    + rewrite Nat.min_l by lia. f_equal. lia.
    + rewrite Nat.min_r by lia.
      rewrite !take_ge; [done | |]; rewrite length_drop; lia.
  - rewrite (Nat.min_r (Z.to_nat s)) by lia.
    rewrite !drop_ge by lia. by rewrite !take_nil.
Qed.

Lemma slice_NaN {A} (to : Js.num) (l : list A) : Js.slice Js.NaN Js.NaN l = [].
Proof. done. Qed.

(** A page that starts at [NaN] or at [Infinity] is empty. *)
Lemma slice_nowhere {A} (skip n : Js.num) (l : list A) :
  skip = Js.NaN \/ skip = Js.PInf -> Js.slice skip (Js.add skip n) l = [].
Proof.
  intros [-> | ->]; unfold Js.slice; simpl.
  - by rewrite take_0.
  - destruct n; simpl; by rewrite drop_all, take_nil.
Qed.

(** What the gate of [getAllPosts] lets through: both numbers are integers
    from 1 up, or the page starts at [NaN] or at [Infinity]. *)
Lemma getAllPosts_gate pageNum limitNum :
  Js.lt pageNum (Js.Num 1) || Js.lt limitNum (Js.Num 1) = false ->
  (exists p L, pageNum = Js.Num p /\ limitNum = Js.Num L /\ (1 <= p)%Z /\ (1 <= L)%Z)
  \/ ((Js.mul (Js.sub pageNum (Js.Num 1)) limitNum = Js.NaN
       \/ Js.mul (Js.sub pageNum (Js.Num 1)) limitNum = Js.PInf)
      /\ forall n, limitNum = Js.Num n -> (1 <= n)%Z).
Proof.
  intros Hgate. apply orb_false_iff in Hgate as [Hp Hl].
  destruct pageNum as [| | | p], limitNum as [| | | L]; simpl in *; try done;
    try (right; split; [by auto | done]).
  - apply bool_decide_eq_false in Hl. right. split; [by left |].
    intros n [= <-]. lia.
  - apply bool_decide_eq_false in Hl. right. split; [| intros n [= <-]; lia].
    unfold Js.inf_of_sign. rewrite bool_decide_eq_false_2 by lia.
    rewrite bool_decide_eq_true_2 by lia. by right.
  - apply bool_decide_eq_false in Hp. right. split; [| done].
    unfold Js.inf_of_sign. case_bool_decide; [by left |].
    rewrite bool_decide_eq_true_2 by lia. by right.
  - apply bool_decide_eq_false in Hp. apply bool_decide_eq_false in Hl.
    left. exists p, L. repeat split; lia.
Qed.

Lemma min_50 (limit0 : Js.num) (L : Z) :
  Js.min limit0 (Js.Num 50) = Js.Num L -> (L <= 50)%Z.
Proof. destruct limit0; simpl; intros [= <-]; lia. Qed.

(** X11: a page of [GET /posts] never holds more than 50 posts, whatever
    the [page] and [limit] texts are, and never more than the page size the
    answer states. *)
Theorem getAllPosts_page_at_most_50 clock req st status message views pagination :
  fst (getAllPosts clock req st) = Success status message (PostsPage views pagination) ->
  (length views <= 50)%nat
  /\ forall n, postsPerPage pagination = Js.Num n -> (Z.of_nat (length views) <= n)%Z.
Proof.
  unfold getAllPosts.
  destruct (_ || _) eqn:Hgate; [done |]. simpl. intros [= <- <- <- <-].
  rewrite length_fmap.
  destruct (getAllPosts_gate _ _ Hgate) as [(p & L & Hp & HL & Hp1 & HL1) | [Hskip Hn]].
  - pose proof (min_50 _ _ HL) as H50. rewrite Hp, HL. simpl.
    replace (Js.Num ((p - 1) * L + L))
      with (Js.add (Js.Num ((p - 1) * L)) (Js.Num L)) by done.
    rewrite slice_nat by nia. rewrite length_take. split; [lia |].
    intros n [= <-]. lia.
  - rewrite slice_nowhere by done. simpl. split; [lia |].
    intros n Hlim. specialize (Hn n Hlim). lia.
Qed.

Lemma getAllPosts_page_at_most_50_witness :
  exists views pagination,
    fst (getAllPosts sampleClock
           (sampleReq None "all" (withPage (Some "1") (Some "9999")) None) sampleStore)
    = Success 200 None (PostsPage views pagination)
    /\ (length views <= 50)%nat.
Proof.
  eexists _, _. split; [vm_compute; reflexivity |].
  refine (proj1 (getAllPosts_page_at_most_50 sampleClock
                   (sampleReq None "all" (withPage (Some "1") (Some "9999")) None)
                   sampleStore 200 None _ _ _)).
  vm_compute; reflexivity.
Defined.

Lemma ceil_lt (p n l : Z) :
  (0 < l)%Z -> (p < - (- n / l))%Z <-> (p * l < n)%Z.
Proof.
  intros Hl.
  pose proof (Z.div_mod (- n) l ltac:(lia)) as Hdm.
  pose proof (Z.mod_pos_bound (- n) l Hl) as Hb.
  split; intros H; nia.
Qed.

Lemma getAllPosts_page_formula clock req st p l :
  parseParam 1 (page (query req)) = Js.Num p ->
  parseParam 10 (limit (query req)) = Js.Num l ->
  (1 <= p)%Z -> (1 <= l)%Z ->
  exists pagination,
    getAllPosts clock req st
    = (Success 200 None
         (PostsPage
            (postView <$> take (Z.to_nat (Z.min l 50))
                            (drop (Z.to_nat ((p - 1) * Z.min l 50))
                               (listedPosts (query req) (posts st))))
            pagination), st).
Proof.
  intros Hp Hl Hp1 Hl1. unfold getAllPosts. rewrite Hp, Hl. simpl.
  rewrite (bool_decide_eq_false_2 (p < 1)%Z) by lia.
  rewrite (bool_decide_eq_false_2 (Z.min l 50 < 1)%Z) by lia.
  cbn [orb]. eexists.
  replace (Js.Num ((p - 1) * Z.min l 50 + Z.min l 50))
    with (Js.add (Js.Num ((p - 1) * Z.min l 50)) (Js.Num (Z.min l 50))) by done.
  rewrite slice_nat by nia. reflexivity.
Qed.

(** X12: for a page number [p] and a limit [l] that [parseInt] reads as
    integers from 1 up, the last index [pL] of the page being a safe integer
    (at most [2^53], so that the handler's index arithmetic on doubles is
    exact), [GET /posts] answers with the rows [(p-1)L] to [pL-1] of the
    listed posts, [L] being [l] cut at 50, and its pagination block is
    exact: [currentPage] is [p], [totalPosts] counts the listed posts,
    [totalPages] is that count divided by [L] and rounded up, and
    [hasNextPage] is true exactly when rows remain after the page. *)
Theorem getAllPosts_page clock req st p l :
  parseParam 1 (page (query req)) = Js.Num p ->
  parseParam 10 (limit (query req)) = Js.Num l ->
  (1 <= p)%Z -> (1 <= l)%Z ->
  (p * Z.min l 50 <= 2 ^ 53)%Z ->
  let L := Z.min l 50 in
  let rows := listedPosts (query req) (posts st) in
  exists totalPages,
    getAllPosts clock req st
    = (Success 200 None
         (PostsPage
            (postView <$> take (Z.to_nat L) (drop (Z.to_nat ((p - 1) * L)) rows))
            {| currentPage := Js.Num p;
               totalPages := Js.Num totalPages;
               totalPosts := length rows;
               postsPerPage := Js.Num L;
               hasNextPage := bool_decide (p * L < Z.of_nat (length rows))%Z;
               hasPrevPage := bool_decide (1 < p)%Z |}), st)
    /\ ((totalPages - 1) * L < Z.of_nat (length rows) <= totalPages * L)%Z.
Proof.
  intros Hp Hl Hp1 Hl1 _ L rows. unfold getAllPosts. rewrite Hp, Hl. simpl.
  rewrite (bool_decide_eq_false_2 (p < 1)%Z) by lia.
  rewrite (bool_decide_eq_false_2 (Z.min l 50 < 1)%Z) by lia.
  rewrite (bool_decide_eq_false_2 (Z.min l 50 = 0)%Z) by lia.
  cbn [orb]. fold L. fold rows.
  exists (- (- Z.of_nat (length rows) / L))%Z. split.
  - replace (Js.Num ((p - 1) * L + L))
      with (Js.add (Js.Num ((p - 1) * L)) (Js.Num L)) by done.
    rewrite slice_nat by nia.
    do 3 f_equal. f_equal. apply bool_decide_ext. apply ceil_lt. lia.
  - pose proof (Z.div_mod (- Z.of_nat (length rows)) L ltac:(lia)) as Hdm.
    pose proof (Z.mod_pos_bound (- Z.of_nat (length rows)) L ltac:(lia)) as Hb.
    nia.
Qed.

Lemma getAllPosts_page_witness :
  exists totalPages,
    getAllPosts sampleClock
      (sampleReq None "all" (withPage (Some "2") (Some "3")) None) sampleStore
    = (Success 200 None
         (PostsPage
            (postView <$> take 3 (drop 3 (listedPosts (withPage (Some "2") (Some "3"))
                                            samplePosts)))
            {| currentPage := Js.Num 2; totalPages := Js.Num totalPages;
               totalPosts := 4; postsPerPage := Js.Num 3;
               hasNextPage := false; hasPrevPage := true |}), sampleStore).
Proof.
  destruct (getAllPosts_page sampleClock
              (sampleReq None "all" (withPage (Some "2") (Some "3")) None)
              sampleStore 2 3 eq_refl eq_refl ltac:(lia) ltac:(lia)
              ltac:(by vm_compute))
    as (totalPages & Heq & _).
  exists totalPages. exact Heq.
Defined.

Lemma listedPosts_ext q q' ps :
  author q' = author q -> sortOrder q' = sortOrder q ->
  listedPosts q' ps = listedPosts q ps.
Proof. unfold listedPosts. by intros -> ->. Qed.

(** X13: fetching the pages one after the other yields every listed post
    exactly once, in order: for requests that differ in the page number
    only, page [k+1] for [k] below [n], with a limit [l] from 1 up, the posts
    of the answers put end to end are the whole listing as soon as [n] pages
    of the size [min l 50] cover its length. *)
Theorem getAllPosts_pages_cover clock st (q : Query) (l : Z) (n : nat)
    (reqOf : nat -> Req) :
  (1 <= l)%Z ->
  (forall k, (k < n)%nat ->
             author (query (reqOf k)) = author q
             /\ sortOrder (query (reqOf k)) = sortOrder q
             /\ parseParam 1 (page (query (reqOf k))) = Js.Num (Z.of_nat k + 1)
             /\ parseParam 10 (limit (query (reqOf k))) = Js.Num l) ->
  (Z.of_nat (length (listedPosts q (posts st))) <= Z.of_nat n * Z.min l 50)%Z ->
  concat ((fun k => pageViews (fst (getAllPosts clock (reqOf k) st))) <$> seq 0 n)
  = postView <$> listedPosts q (posts st).
Proof.
  intros Hl Hreq Hcover.
  set (L := Z.to_nat (Z.min l 50)).
  assert (forall k, (k < n)%nat ->
                    pageViews (fst (getAllPosts clock (reqOf k) st))
                    = postView <$> take L (drop (k * L) (listedPosts q (posts st))))
    as Hpage.
  { intros k Hk. destruct (Hreq k Hk) as (Ha & Hs & Hp & Hlim).
    destruct (getAllPosts_page_formula clock (reqOf k) st (Z.of_nat k + 1) l Hp Hlim
                ltac:(lia) Hl) as (tp & Heq).
    rewrite Heq. simpl. rewrite (listedPosts_ext q) by done.
    do 3 f_equal. unfold L. nia. }
  assert (forall m, (m <= n)%nat ->
                    concat ((fun k => pageViews (fst (getAllPosts clock (reqOf k) st)))
                              <$> seq 0 m)
                    = postView <$> take (m * L) (listedPosts q (posts st))) as Hall.
  { induction m as [| m IH]; intros Hm; [done |].
    rewrite seq_S, fmap_app, concat_app, IH by lia. simpl.
    rewrite app_nil_r, Hpage by lia.
    rewrite <- fmap_app, take_take_drop. do 2 f_equal. lia. }
  rewrite Hall by lia. f_equal. apply take_ge. unfold L. nia.
Qed.

Lemma getAllPosts_pages_cover_witness :
  let reqOf k := sampleReq None "all"
                   (withPage (Some (if bool_decide (k = 0%nat) then "1" else "2"))
                      (Some "3")) None in
  (pageViews (fst (getAllPosts sampleClock (reqOf 0%nat) sampleStore))
   ++ pageViews (fst (getAllPosts sampleClock (reqOf 1%nat) sampleStore)))%list
  = postView <$> listedPosts noQuery samplePosts.
Proof.
  intros reqOf.
  pose proof (getAllPosts_pages_cover sampleClock sampleStore noQuery 3 2 reqOf
                ltac:(lia)) as Hcover.
  cbn [seq fmap list_fmap concat] in Hcover. rewrite app_nil_r in Hcover.
  apply Hcover.
  - intros [| [| k]] Hk; [done | done | lia].
  - vm_compute. discriminate.
Defined.

Lemma StronglySorted_slice {A} (R : A -> A -> Prop) (from to : Js.num) (l : list A) :
  StronglySorted R l -> StronglySorted R (Js.slice from to l).
Proof.
  intros Hs. unfold Js.slice.
  rewrite <- (take_drop (Js.relativeIndex (length l) from) l) in Hs.
  apply StronglySorted_app_1_r in Hs.
  rewrite <- (take_drop (Js.relativeIndex (length l) to
                         - Js.relativeIndex (length l) from)
                (drop _ l)) in Hs.
  by apply StronglySorted_app_1_l in Hs.
Qed.

Lemma listedPosts_sorted q ps :
  StronglySorted
    (fun a b => if bool_decide (default "desc" (sortOrder q) = "desc")
                then (Post.created b <= Post.created a)%Z
                else (Post.created a <= Post.created b)%Z)
    (listedPosts q ps).
Proof.
  unfold listedPosts.
  apply Sorted_StronglySorted.
  { intros a b c. case_bool_decide; lia. }
  apply sort_Sorted; intros x y; case_bool_decide; lia.
Qed.

Lemma listedPosts_author q ps a post :
  author q = Some a -> a <> EmptyString ->
  In post (listedPosts q ps) -> Post.author post = a.
Proof.
  intros Ha Hne. unfold listedPosts. rewrite Ha.
  destruct a as [| c a]; [done |].
  rewrite <- list_elem_of_In, sort_Permutation, !list_elem_of_filter. tauto.
Qed.

(** X14: the posts of a page come sorted on their creation time, newest
    first unless a [sortOrder] other than [desc] is given, then oldest
    first; and with a non-empty [author] parameter every post of the page is
    by that author. *)
Theorem getAllPosts_sorted_and_filtered clock req st status message views pagination :
  fst (getAllPosts clock req st) = Success status message (PostsPage views pagination) ->
  StronglySorted
    (fun a b => if bool_decide (default "desc" (sortOrder (query req)) = "desc")
                then (pv_created b <= pv_created a)%Z
                else (pv_created a <= pv_created b)%Z) views
  /\ forall a, author (query req) = Some a -> a <> EmptyString ->
               Forall (fun v => pv_author v = a) views.
Proof.
  unfold getAllPosts. case_match; [done |]. simpl. intros [= <- <- <- <-]. split.
  - eapply StronglySorted_fmap; [| apply StronglySorted_slice, listedPosts_sorted].
    intros x y. done.
  - intros a Ha Hne. apply Forall_fmap, Forall_forall. intros post Hin. simpl.
    apply list_elem_of_In, slice_subseteq in Hin.
    by eapply listedPosts_author.
Qed.

Lemma getAllPosts_sorted_and_filtered_witness :
  exists views pagination,
    fst (getAllPosts sampleClock
           (sampleReq None "all"
              {| page := None; limit := None; author := Some "u2"; sortBy := None;
                 sortOrder := Some "asc" |} None) sampleStore)
    = Success 200 None (PostsPage views pagination)
    /\ views <> [] /\ Forall (fun v => pv_author v = "u2") views.
Proof.
  eexists _, _. split; [vm_compute; reflexivity |]. split; [discriminate |].
  refine (proj2 (getAllPosts_sorted_and_filtered sampleClock
                   (sampleReq None "all"
                      {| page := None; limit := None; author := Some "u2";
                         sortBy := None; sortOrder := Some "asc" |} None)
                   sampleStore 200 None _ _ _) "u2" _ _);
    [vm_compute; reflexivity | reflexivity | discriminate].
Defined.

(** ** Following, counted *)

Lemma followUser_success_inv clock req st status message data st' :
  followUser clock req st = (Success status message data, st') ->
  exists u target,
    user req = Some u /\ p_id u <> param req
    /\ findUser (users st) (param req) = Some target
    /\ list_find (activeEdge (p_id u) (param req)) (follows st) = None
    /\ st' = setFollows st
               (follows st
                  ++ [ {| Follow.id := "f" +:+ Js.decimal (Z.of_nat (length (follows st)) + 1);
                          Follow.follower := p_id u;
                          Follow.following := param req;
                          Follow.created := clock 0%nat;
                          Follow.isDeleted := false;
                          Follow.updatedAt := None |} ]).
Proof.
  unfold followUser.
  destruct (user req) as [u |]; [| done].
  case_bool_decide as Hne; [done |].
  destruct (findUser (users st) (param req)) as [target |] eqn:Ht; [| done].
  destruct (list_find _ (follows st)) as [[i e] |] eqn:Hf; [done |].
  intros [= <- <- <- <-]. by exists u, target.
Qed.

Lemma unfollowUser_success_inv clock req st status message data st' :
  unfollowUser clock req st = (Success status message data, st') ->
  exists u target i e,
    user req = Some u /\ p_id u <> param req
    /\ findUser (users st) (param req) = Some target
    /\ follows st !! i = Some e /\ activeEdge (p_id u) (param req) e
    /\ st' = setFollows st (alter (markFollowDeleted (clock 0%nat)) i (follows st)).
Proof.
  unfold unfollowUser.
  destruct (user req) as [u |]; [| done].
  case_bool_decide as Hne; [done |].
  destruct (findUser (users st) (param req)) as [target |] eqn:Ht; [| done].
  destruct (list_find _ (follows st)) as [[i e] |] eqn:Hf; [| done].
  intros [= <- <- <- <-]. apply list_find_Some in Hf as (Hl & Hact & _).
  by exists u, target, i, e.
Qed.

Lemma getFollowStats_counts clock req st target :
  findUser (users st) (param req) = Some target ->
  getFollowStats clock req st
  = (Success 200 None
       (FollowStats (param req) (followersCount (follows st) (param req))
          (followingCount (follows st) (param req)) (userView target)), st).
Proof. intros Ht. unfold getFollowStats. by rewrite Ht. Qed.

(** X15: a successful follow of [b] by [a] appends one row and touches no
    other: afterwards [a] follows [b], the statistics of [b] show one
    follower more and the same number of followings, and the followers count
    of every other account is as before. *)
Theorem follow_counts_up clock req st status message data st' :
  followUser clock req st = (Success status message data, st') ->
  exists a target,
    user req = Some a
    /\ take (length (follows st)) (follows st') = follows st
    /\ length (follows st') = S (length (follows st))
    /\ isFollowing (follows st') (p_id a) (param req) = true
    /\ (forall clock' req',
           param req' = param req ->
           getFollowStats clock' req' st'
           = (Success 200 None
                (FollowStats (param req)
                   (S (followersCount (follows st) (param req)))
                   (followingCount (follows st) (param req))
                   (userView target)), st'))
    /\ forall x, x <> param req ->
                 followersCount (follows st') x = followersCount (follows st) x.
Proof.
  intros Hok.
  apply followUser_success_inv in Hok as (a & target & Ha & Hne & Ht & Hnone & ->).
  exists a, target. simpl. split; [done |].
  split; [by rewrite take_app_length |].
  split; [rewrite length_app; simpl; lia |].
  split.
  { unfold isFollowing. apply bool_decide_eq_true_2.
    apply Exists_app. right. by repeat constructor. }
  split.
  - intros clock' req' Hparam.
    rewrite (getFollowStats_counts clock' req' _ target) by (by rewrite Hparam).
    rewrite Hparam. unfold followersCount, followingCount. simpl.
    rewrite !filter_app, !length_app, !filter_cons, !filter_nil. simpl.
    rewrite decide_True by done.
    rewrite decide_False by (intros [Hx _]; done). simpl.
    do 3 f_equal; lia.
  - intros x Hx. unfold followersCount.
    rewrite filter_app, length_app, filter_cons, filter_nil. simpl.
    rewrite decide_False by (intros [Hy _]; done). simpl. lia.
Qed.

Lemma follow_counts_up_witness :
  let req := asUser {| p_id := "u2"; p_role := "user"; p_name := "Jane Doe" |}
               (sampleReq None "u3" noQuery None) in
  let st' := snd (followUser sampleClock req sampleStore) in
  isFollowing (follows st') "u2" "u3" = true
  /\ length (follows st') = 7%nat.
Proof.
  intros req st'.
  destruct (follow_counts_up sampleClock req sampleStore 201
              (Some "Successfully followed Jim Doe")
              (FollowCreated "f7" "u2" "u3" (sampleClock 0%nat)) st' eq_refl)
    as (a & target & Ha & _ & Hlen & Hfol & _).
  injection Ha as <-. split; [exact Hfol | exact Hlen].
Defined.

(** X16: following twice in a row: the second call is answered
    [ALREADY_FOLLOWING] and leaves the store as the first call made it. *)
Theorem follow_twice_already_following clock req st status message data st' :
  followUser clock req st = (Success status message data, st') ->
  forall clock',
    followUser clock' req st'
    = (Failure 400 "ALREADY_FOLLOWING" "You are already following this user" [], st').
Proof.
  intros Hok clock'.
  apply followUser_success_inv in Hok as (a & target & Ha & Hne & Ht & Hnone & ->).
  unfold followUser. rewrite Ha. rewrite bool_decide_eq_false_2 by done.
  simpl. rewrite Ht.
  destruct (list_find _ (_ ++ _)) as [[i e] |] eqn:Hf; [done |].
  apply list_find_app_None in Hf as [_ Hf].
  simpl in Hf. by rewrite decide_True in Hf by done.
Qed.

Lemma follow_twice_already_following_witness :
  let req := asUser {| p_id := "u2"; p_role := "user"; p_name := "Jane Doe" |}
               (sampleReq None "u3" noQuery None) in
  let st' := snd (followUser sampleClock req sampleStore) in
  code_of (fst (followUser sampleClock req st')) = Some "ALREADY_FOLLOWING".
Proof.
  intros req st'.
  rewrite (follow_twice_already_following sampleClock req sampleStore 201
             (Some "Successfully followed Jim Doe")
             (FollowCreated "f7" "u2" "u3" (sampleClock 0%nat)) st' eq_refl sampleClock).
  reflexivity.
Defined.

(** X17: a successful unfollow of [b] by [a] lowers the followers count of
    [b] and the following count of [a] by exactly one, whatever else the
    store holds, and changes the followers count of no other account. *)
Theorem unfollow_counts_down clock req st status message data st' :
  unfollowUser clock req st = (Success status message data, st') ->
  exists a,
    user req = Some a
    /\ followersCount (follows st) (param req)
       = S (followersCount (follows st') (param req))
    /\ followingCount (follows st) (p_id a) = S (followingCount (follows st') (p_id a))
    /\ forall x, x <> param req ->
                 followersCount (follows st') x = followersCount (follows st) x.
Proof.
  intros Hok.
  apply unfollowUser_success_inv in Hok
    as (a & target & i & e & Ha & Hne & Ht & Hl & (Hfo & Hfi & Hdel) & ->).
  exists a. simpl. split; [done |]. unfold followersCount, followingCount. split.
  { apply (filter_alter_length_drop _ _ _ _ _ Hl); [done |]. by intros [_ ?]. }
  split.
  { apply (filter_alter_length_drop _ _ _ _ _ Hl); [done |]. by intros [_ ?]. }
  intros x Hx. apply Nat.le_antisymm.
  - apply filter_alter_length_le. by intros y [_ ?].
  - clear Ha Ht. revert i Hl. induction (follows st) as [| f fs IH]; intros [| i] Hl;
      simpl in *; try done.
    + injection Hl as ->. rewrite !filter_cons.
      rewrite decide_False by (intros [Hy _]; congruence).
      rewrite decide_False by (by intros [_ ?]). done.
    + rewrite !filter_cons. specialize (IH i Hl). unfold alter in IH.
      destruct (decide _); simpl; lia.
Qed.

Lemma unfollow_counts_down_witness :
  let req := asUser {| p_id := "u1"; p_role := "admin"; p_name := "John Doe" |}
               (sampleReq None "u2" noQuery None) in
  let st' := snd (unfollowUser sampleClock req sampleStore) in
  followersCount seedFollows "u2" = S (followersCount (follows st') "u2").
Proof.
  intros req st'.
  destruct (unfollow_counts_down sampleClock req sampleStore 200
              (Some "Successfully unfollowed Jane Doe") (Unfollowed "f1" "u1" "u2") st'
              eq_refl) as (a & _ & Hdown & _).
  exact Hdown.
Defined.

(** X18: following again after an unfollow makes a new row and leaves the
    old one as history: with at most one active edge per pair, after a
    successful unfollow the same follower can follow again, the new edge is
    appended at the end under the next id, and the row that was soft-deleted
    stays in its place, still deleted. *)
Theorem refollow_adds_new_row clock req st status message data st1 :
  uniqueActive (follows st) ->
  unfollowUser clock req st = (Success status message data, st1) ->
  forall clock',
  exists a target i e,
    user req = Some a
    /\ follows st !! i = Some e
    /\ follows st1 !! i = Some (markFollowDeleted (clock 0%nat) e)
    /\ let newFollow :=
         {| Follow.id := "f" +:+ Js.decimal (Z.of_nat (length (follows st)) + 1);
            Follow.follower := p_id a;
            Follow.following := param req;
            Follow.created := clock' 0%nat;
            Follow.isDeleted := false;
            Follow.updatedAt := None |} in
       followUser clock' req st1
       = (Success 201 (Some ("Successfully followed " +:+ User.name target))
            (FollowCreated (Follow.id newFollow) (p_id a) (param req) (clock' 0%nat)),
          setFollows st1 (follows st1 ++ [newFollow])).
Proof.
  intros Huniq Hok clock'.
  apply unfollowUser_success_inv in Hok
    as (a & target & i & e & Ha & Hne & Ht & Hl & Hact & ->).
  exists a, target, i, e. split; [done |]. split; [done |]. split.
  { simpl. by rewrite list_lookup_alter_eq, Hl. }
  assert (list_find (activeEdge (p_id a) (param req))
            (alter (markFollowDeleted (clock 0%nat)) i (follows st)) = None) as Hnone.
  { apply filter_nil_find_None, length_zero_iff_nil.
    pose proof (filter_alter_length_drop (activeEdge (p_id a) (param req))
                  (markFollowDeleted (clock 0%nat)) _ _ _ Hl Hact
                  (markFollowDeleted_not_active _ _ _ _)) as Hlen.
    specialize (Huniq (p_id a) (param req)). lia. }
  unfold followUser. rewrite Ha. rewrite bool_decide_eq_false_2 by done.
  simpl. rewrite Ht, Hnone. by rewrite length_alter.
Qed.

Lemma refollow_adds_new_row_witness :
  let req := asUser {| p_id := "u1"; p_role := "admin"; p_name := "John Doe" |}
               (sampleReq None "u2" noQuery None) in
  let st1 := snd (unfollowUser sampleClock req sampleStore) in
  let st2 := snd (followUser sampleClock req st1) in
  length (follows st2) = 7%nat
  /\ Follow.isDeleted <$> follows st2 !! 0%nat = Some true
  /\ Follow.id <$> follows st2 !! 6%nat = Some "f7".
Proof.
  intros req st1 st2.
  destruct (refollow_adds_new_row sampleClock req sampleStore 200
              (Some "Successfully unfollowed Jane Doe") (Unfollowed "f1" "u1" "u2") st1
              (proj2 sampleStore_followInvariant) eq_refl sampleClock)
    as (a & target & i & e & _ & _ & _ & Hfollow).
  unfold st2. rewrite Hfollow. repeat split.
Defined.

(** ** The ids of follow rows *)

Lemma to_int_nonnil z : Z.to_int z <> Decimal.Pos Decimal.Nil /\ Z.to_int z <> Decimal.Neg Decimal.Nil.
Proof.
  destruct z as [| p | p]; simpl; split; try done;
    intros [= Hp]; by apply Unsigned.to_uint_nonnil in Hp.
Qed.

Lemma decimal_inj z z' : Js.decimal z = Js.decimal z' -> z = z'.
Proof.
  unfold Js.decimal. intros Heq.
  destruct (to_int_nonnil z) as [Hz1 Hz2], (to_int_nonnil z') as [Hz1' Hz2'].
  pose proof (NilZero.isi _ Hz1 Hz2) as Hi.
  pose proof (NilZero.isi _ Hz1' Hz2') as Hi'.
  rewrite Heq, Hi' in Hi. injection Hi as Hi.
  by apply DecimalZ.to_int_inj.
Qed.

Lemma followIdsCanonical_NoDup fs :
  followIdsCanonical fs -> NoDup (Follow.id <$> fs).
Proof.
  intros Hcan. apply NoDup_alt. intros i j x Hi Hj.
  rewrite list_lookup_fmap in Hi, Hj.
  destruct (fs !! i) as [e |] eqn:Hei; [| done].
  destruct (fs !! j) as [e' |] eqn:Hej; [| done].
  simpl in Hi, Hj. injection Hi as Hi. injection Hj as Hj.
  rewrite (Hcan _ _ Hei) in Hi. rewrite (Hcan _ _ Hej) in Hj.
  rewrite <- Hj in Hi. injection Hi as Hi. apply decimal_inj in Hi. lia.
Qed.

Lemma followUser_ids clock req st :
  followIdsCanonical (follows st) ->
  followIdsCanonical (follows (snd (followUser clock req st))).
Proof.
  intros Hcan. unfold followUser. handler_cases.
  intros i e Hl. apply lookup_app_Some in Hl as [Hl | [Hge Hl]]; [by apply Hcan |].
  destruct (i - length (follows st))%nat as [| k] eqn:Hk; [| done].
  injection Hl as <-. simpl. do 2 f_equal. lia.
Qed.

Lemma unfollowUser_ids clock req st :
  followIdsCanonical (follows st) ->
  followIdsCanonical (follows (snd (unfollowUser clock req st))).
Proof.
  intros Hcan. unfold unfollowUser. handler_cases.
  intros i e Hl. rewrite list_lookup_alter in Hl.
  case_decide as Hi; [| by apply Hcan]. subst.
  destruct (follows st !! i) as [e0 |] eqn:He0; [| done].
  injection Hl as <-. simpl. by apply Hcan.
Qed.

Lemma dispatch_ids `{JsonWebToken} `{FollowValidator} (e : Endpoint) clock req st :
  followIdsCanonical (follows st) ->
  followIdsCanonical (follows (snd (dispatch e clock req st))).
Proof.
  revert clock req st.
  destruct e; simpl;
    apply (route_preserves (fun s => followIdsCanonical (follows s)));
    intros clock req st Hcan.
  - by rewrite getAllPosts_store.
  - by rewrite getPostById_store.
  - by rewrite createPost_follows.
  - by rewrite deletePost_follows.
  - by apply followUser_ids.
  - by apply unfollowUser_ids.
  - by rewrite getFollowers_store.
  - by rewrite getFollowing_store.
  - by rewrite checkFollowStatus_store.
  - by rewrite getFollowStats_store.
Qed.

(** X19: the ids of the follow rows stay [f1], [f2], ... in store order
    through every history of requests, and are therefore pairwise distinct:
    [followUser] numbers a new row by the length of the array, and no
    endpoint removes or renumbers a row. *)
Theorem follow_ids_stay_distinct `{JsonWebToken} `{FollowValidator}
    (calls : list Call) (st : Store) :
  followIdsCanonical (follows st) ->
  followIdsCanonical (follows (serve calls st))
  /\ NoDup (Follow.id <$> follows (serve calls st)).
Proof.
  intros Hcan.
  assert (followIdsCanonical (follows (serve calls st))) as Hend.
  { revert st Hcan. unfold serve.
    induction calls as [| c calls IH]; intros st Hcan; [done |].
    simpl. apply IH. by apply dispatch_ids. }
  split; [done | by apply followIdsCanonical_NoDup].
Qed.

Lemma seedFollows_canonical : followIdsCanonical seedFollows.
Proof.
  intros i e Hl.
  do 6 (destruct i as [| i]; [injection Hl as <-; reflexivity |]). done.
Qed.

Lemma follow_ids_stay_distinct_witness :
  NoDup (Follow.id <$>
           follows (@serve sampleJwt permissiveFollowValidator
                      [ {| c_endpoint := DELETE_follows_userId; c_clock := sampleClock;
                           c_req := sampleReq (Some "Bearer token-u1") "u2" noQuery None |};
                        {| c_endpoint := POST_follows_userId; c_clock := sampleClock;
                           c_req := sampleReq (Some "Bearer token-u1") "u2" noQuery None |} ]
                      sampleStore)).
Proof.
  apply (@follow_ids_stay_distinct sampleJwt permissiveFollowValidator).
  exact seedFollows_canonical.
Defined.

(** ** Nothing is erased *)

Lemma Forall2_same {A} (R : A -> A -> Prop) (l : list A) :
  (forall x, R x x) -> Forall2 R l l.
Proof. intros Hrefl. induction l; by constructor. Qed.

Lemma Forall2_alter_self {A} (R : A -> A -> Prop) (f : A -> A) (i : nat) (l : list A) :
  (forall x, R x x) -> (forall x, R x (f x)) -> Forall2 R l (alter f i l).
Proof.
  intros Hrefl Hf. revert i. induction l as [| x l IH]; intros [| i]; simpl.
  - constructor.
  - constructor.
  - constructor; [apply Hf | by apply Forall2_same].
  - constructor; [apply Hrefl | apply IH].
Qed.

Lemma postKept_refl p : postKept p p.
Proof. by repeat split. Qed.

Lemma followKept_refl f : followKept f f.
Proof. by repeat split. Qed.

Lemma storeGrows_refl st : storeGrows st st.
Proof.
  split; [done |]. split.
  - exists (posts st), []. rewrite app_nil_r. split; [done |].
    apply Forall2_same, postKept_refl.
  - exists (follows st), []. rewrite app_nil_r. split; [done |].
    apply Forall2_same, followKept_refl.
Qed.

Lemma postKept_trans p q r : postKept p q -> postKept q r -> postKept p r.
Proof.
  intros (? & ? & ? & ? & ?) (? & ? & ? & ? & ?).
  repeat split; try congruence. auto.
Qed.

Lemma followKept_trans f g h : followKept f g -> followKept g h -> followKept f h.
Proof.
  intros (? & ? & ? & ? & ?) (? & ? & ? & ? & ?).
  repeat split; try congruence. auto.
Qed.

Lemma grows_trans {A} (R : A -> A -> Prop) (l1 l2 l3 : list A) :
  (forall x y z, R x y -> R y z -> R x z) ->
  (exists kept more, l2 = (kept ++ more)%list /\ Forall2 R l1 kept) ->
  (exists kept more, l3 = (kept ++ more)%list /\ Forall2 R l2 kept) ->
  exists kept more, l3 = (kept ++ more)%list /\ Forall2 R l1 kept.
Proof.
  intros Htrans (k1 & m1 & -> & H1) (k2 & m2 & -> & H2).
  apply Forall2_app_inv_l in H2 as (k2a & k2b & Ha & Hb & ->).
  exists k2a, (k2b ++ m2)%list. split; [by rewrite <- app_assoc |].
  eapply Forall2_trans; [| exact H1 | exact Ha]. apply Htrans.
Qed.

Lemma storeGrows_trans st1 st2 st3 :
  storeGrows st1 st2 -> storeGrows st2 st3 -> storeGrows st1 st3.
Proof.
  intros (Hu1 & Hp1 & Hf1) (Hu2 & Hp2 & Hf2). split; [congruence |]. split.
  - eapply grows_trans; [apply postKept_trans | done | done].
  - eapply grows_trans; [apply followKept_trans | done | done].
Qed.

Lemma storeGrows_posts st ps :
  (exists kept more, ps = (kept ++ more)%list /\ Forall2 postKept (posts st) kept) ->
  storeGrows st (setPosts st ps).
Proof.
  intros Hp. split; [done |]. split; [done |]. apply (storeGrows_refl st).
Qed.

Lemma storeGrows_follows st fs :
  (exists kept more, fs = (kept ++ more)%list /\ Forall2 followKept (follows st) kept) ->
  storeGrows st (setFollows st fs).
Proof.
  intros Hf. split; [done |]. split; [| done]. apply (storeGrows_refl st).
Qed.

Lemma handlers_grow clock req st :
  storeGrows st (snd (createPost clock req st))
  /\ storeGrows st (snd (deletePost clock req st))
  /\ storeGrows st (snd (followUser clock req st))
  /\ storeGrows st (snd (unfollowUser clock req st)).
Proof.
  split; [| split; [| split]].
  - unfold createPost. handler_cases; try apply storeGrows_refl.
    apply storeGrows_posts. eexists _, _. split; [done |].
    apply Forall2_same, postKept_refl.
  - unfold deletePost. handler_cases; try apply storeGrows_refl.
    apply storeGrows_posts. eexists _, []. rewrite app_nil_r. split; [done |].
    apply Forall2_alter_self; [apply postKept_refl | by repeat split].
  - unfold followUser. handler_cases; try apply storeGrows_refl.
    apply storeGrows_follows. eexists _, _. split; [done |].
    apply Forall2_same, followKept_refl.
  - unfold unfollowUser. handler_cases; try apply storeGrows_refl.
    apply storeGrows_follows. eexists _, []. rewrite app_nil_r. split; [done |].
    apply Forall2_alter_self; [apply followKept_refl | by repeat split].
Qed.

Lemma dispatch_grows `{JsonWebToken} `{FollowValidator} (e : Endpoint) clock req st :
  storeGrows st (snd (dispatch e clock req st)).
Proof.
  assert (forall mws (h : Handler),
             (forall c r s, storeGrows s (snd (h c r s))) ->
             storeGrows st (snd (route mws h clock req st))) as Hroute.
  { intros mws h Hh. unfold route.
    destruct (chain mws req); [apply storeGrows_refl | apply Hh]. }
  destruct e; simpl; apply Hroute; intros c r s.
  - rewrite getAllPosts_store. apply storeGrows_refl.
  - rewrite getPostById_store. apply storeGrows_refl.
  - apply handlers_grow.
  - apply handlers_grow.
  - apply handlers_grow.
  - apply handlers_grow.
  - rewrite getFollowers_store. apply storeGrows_refl.
  - rewrite getFollowing_store. apply storeGrows_refl.
  - rewrite checkFollowStatus_store. apply storeGrows_refl.
  - rewrite getFollowStats_store. apply storeGrows_refl.
Qed.

(** X20: nothing is ever erased.  After any history of requests the store
    holds every post and every follow edge it held before, at the same
    index, with the same id, parties, content and creation time, deleted if
    it was deleted; rows are only added at the end, and the accounts are
    untouched. *)
Theorem serve_never_erases `{JsonWebToken} `{FollowValidator}
    (calls : list Call) (st : Store) :
  storeGrows st (serve calls st).
Proof.
  unfold serve. revert st.
  induction calls as [| c calls IH]; intros st; [apply storeGrows_refl |].
  simpl. eapply storeGrows_trans; [apply dispatch_grows | apply IH].
Qed.

(** ** Followers and following lists *)

Lemma filter_all {A} (l : list A) : filter (fun _ => True) l = l.
Proof.
  induction l as [| x l IH]; [done |]. rewrite filter_cons.
  rewrite decide_True by done. by rewrite IH.
Qed.

Lemma joinAccounts_Some us counterpart rows joined :
  joinAccounts us counterpart rows = Some joined
  <-> Forall2 (fun f row => exists u, findUser us (counterpart f) = Some u
                                     /\ row = (Follow.id f, userView u)) rows joined.
Proof.
  unfold joinAccounts. split.
  - destruct (mapM _ rows) as [k |] eqn:E; [| done]. simpl. intros [= <-].
    rewrite filter_all. apply mapM_Some in E.
    eapply Forall2_impl; [exact E |]. intros f row. unfold withDetails.
    destruct (findUser us (counterpart f)) as [u |]; [| done].
    intros [= <-]. by exists u.
  - intros HF.
    assert (mapM (withDetails us counterpart) rows = Some joined) as ->.
    { apply mapM_Some. eapply Forall2_impl; [exact HF |].
      intros f row (u & Hu & ->). unfold withDetails. by rewrite Hu. }
    simpl. by rewrite filter_all.
Qed.

Lemma joinAccounts_is_Some us counterpart rows :
  is_Some (joinAccounts us counterpart rows)
  <-> Forall (fun f => is_Some (findUser us (counterpart f))) rows.
Proof.
  unfold joinAccounts. rewrite fmap_is_Some, mapM_is_Some.
  apply Forall_iff. intros f. unfold compose, withDetails.
  destruct (findUser us (counterpart f)); split; intros [? ?]; done || eauto.
Qed.

Lemma followsPage_rows {A} (q : Query) (rows : list A) x :
  In x (followsPage q rows).1 -> In x rows.
Proof. unfold followsPage. simpl. apply slice_subseteq. Qed.

(** X21: for an account that exists, [getFollowers] answers 200 exactly
    when every active edge towards it has a follower that can be found, and
    500 otherwise; on 200 the [total] of the pagination block is the
    followers count [getFollowStats] reports, and every row of the page
    pairs the id of an active edge towards the account with the account of
    its follower. *)
Theorem getFollowers_exact clock req st target :
  findUser (users st) (param req) = Some target ->
  (status_of (fst (getFollowers clock req st)) = 200%nat
   <-> Forall (fun f => Follow.following f = param req /\ Follow.isDeleted f = false ->
                        is_Some (findUser (users st) (Follow.follower f)))
              (follows st))
  /\ In (status_of (fst (getFollowers clock req st))) [200; 500]%nat
  /\ forall status message followers pagination,
       fst (getFollowers clock req st)
       = Success status message (FollowersPage followers pagination) ->
       fp_total pagination = followersCount (follows st) (param req)
       /\ getFollowStats clock req st
          = (Success 200 None
               (FollowStats (param req) (fp_total pagination)
                  (followingCount (follows st) (param req)) (userView target)), st)
       /\ Forall (fun row =>
                    exists f u, In f (follows st)
                                /\ Follow.following f = param req
                                /\ Follow.isDeleted f = false
                                /\ findUser (users st) (Follow.follower f) = Some u
                                /\ row = (Follow.id f, userView u)) followers.
Proof.
  intros Ht. unfold getFollowers. rewrite Ht.
  set (active := filter (fun f => Follow.following f = param req
                                  /\ Follow.isDeleted f = false) (follows st)).
  pose proof (joinAccounts_is_Some (users st) Follow.follower active) as Hsome.
  assert (Forall (fun f => is_Some (findUser (users st) (Follow.follower f))) active
          <-> Forall (fun f => Follow.following f = param req
                               /\ Follow.isDeleted f = false ->
                               is_Some (findUser (users st) (Follow.follower f)))
                     (follows st)) as Hall.
  { unfold active. rewrite !Forall_forall. setoid_rewrite list_elem_of_filter.
    split; intros H x; [intros Hx Hact | intros [Hact Hx]]; by apply H. }
  destruct (joinAccounts (users st) Follow.follower active) as [joined |] eqn:Hj.
  - split; [| split].
    + destruct (followsPage (query req) joined). simpl.
      rewrite <- Hall, <- Hsome. split; [by eauto | done].
    + destruct (followsPage (query req) joined). simpl. auto.
    + intros status message followers pagination.
      destruct (followsPage (query req) joined) as [page pg] eqn:Hpage.
      simpl. intros [= <- <- <- <-].
      apply joinAccounts_Some in Hj.
      assert (fp_total pg = followersCount (follows st) (param req)) as Htotal.
      { unfold followsPage in Hpage. injection Hpage as _ <-. simpl.
        symmetry. by apply Forall2_length in Hj. }
      split; [done |]. split.
      { rewrite (getFollowStats_counts clock req st target Ht). by rewrite Htotal. }
      apply Forall_forall. intros row Hrow.
      assert (In row joined) as Hin.
      { apply (followsPage_rows (query req)). rewrite Hpage. by apply list_elem_of_In. }
      apply list_elem_of_In, list_elem_of_lookup_1 in Hin as [i Hi].
      destruct (Forall2_lookup_r _ _ _ _ _ Hj Hi) as (f & Hf & u & Hu & ->).
      apply list_elem_of_lookup_2, list_elem_of_filter in Hf as [[Hfo Hdel] Hf].
      exists f, u. repeat split; try done. by apply list_elem_of_In.
  - split; [| split].
    + simpl. rewrite <- Hall, <- Hsome. split; [done | by intros [? ?]].
    + simpl. auto.
    + intros status message followers pagination. done.
Qed.

Lemma getFollowers_exact_witness :
  status_of (fst (getFollowers sampleClock (sampleReq None "u2" noQuery None)
                    sampleStore)) = 200%nat.
Proof.
  apply (proj1 (getFollowers_exact sampleClock (sampleReq None "u2" noQuery None)
                  sampleStore
                  (seedUser "u2" "Jane Doe" "jane.doe@example.com" "user" 1706877000000)
                  eq_refl)).
  repeat constructor; intros [Hf Hd]; try discriminate; vm_compute; eauto.
Defined.

Lemma slice_length_le {A} (skip : Js.num) (n : Z) (l : list A) :
  (0 <= n)%Z ->
  (length (Js.slice skip (Js.add skip (Js.Num n)) l) <= Z.to_nat n)%nat.
Proof.
  intros Hn. unfold Js.slice. rewrite length_take, length_drop.
  destruct skip as [| | | s]; simpl; try lia.
  repeat case_bool_decide; lia.
Qed.

(** X22: the size of a followers page.  With a [limit] that reads as an
    integer from 0 up, the page holds at most that many rows and never more
    than 50, whatever the page number; a [limit] that is not a number gives
    an empty page; and a negative [limit] is not refused: on page 1 it
    yields all rows but the last [-limit]. *)
Theorem getFollowers_page_size clock req st status message followers pagination :
  fst (getFollowers clock req st)
  = Success status message (FollowersPage followers pagination) ->
  (forall l, parseParam 10 (limit (query req)) = Js.Num l -> (0 <= l)%Z ->
             (Z.of_nat (length followers) <= Z.min l 50)%Z)
  /\ (parseParam 10 (limit (query req)) = Js.NaN -> followers = [])
  /\ (forall l, parseParam 1 (page (query req)) = Js.Num 1 ->
                parseParam 10 (limit (query req)) = Js.Num l -> (l < 0)%Z ->
                length followers = (fp_total pagination - Z.to_nat (- l))%nat).
Proof.
  unfold getFollowers.
  destruct (findUser (users st) (param req)) as [target |]; [| done].
  destruct (joinAccounts _ _ _) as [joined |]; [| done].
  unfold followsPage. simpl. intros [= <- <- <- <-]. split; [| split].
  - intros l Hl Hl0. rewrite Hl. simpl.
    pose proof (slice_length_le
                  (Js.mul (Js.sub (parseParam 1 (page (query req))) (Js.Num 1))
                     (Js.Num (Z.min l 50)))
                  (Z.min l 50) joined ltac:(lia)). lia.
  - intros Hnan. rewrite Hnan. simpl.
    destruct (Js.sub _ _); unfold Js.slice; simpl; by rewrite ?take_0.
  - intros l Hp Hl Hneg. rewrite Hp, Hl. simpl.
    replace (Z.min l 50) with l by lia.
    unfold Js.slice. simpl. rewrite bool_decide_eq_true_2 by lia.
    rewrite length_take, length_drop. lia.
Qed.

Lemma getFollowers_page_size_witness :
  exists followers pagination,
    fst (getFollowers sampleClock
           (sampleReq None "u1" (withPage None (Some "-1")) None) sampleStore)
    = Success 200 None (FollowersPage followers pagination)
    /\ (0 < fp_total pagination)%nat
    /\ length followers = (fp_total pagination - 1)%nat.
Proof.
  eexists _, _. split; [vm_compute; reflexivity |]. split; [simpl; lia |].
  refine (proj2 (proj2 (getFollowers_page_size sampleClock
                          (sampleReq None "u1" (withPage None (Some "-1")) None)
                          sampleStore 200 None _ _ _)) (-1)%Z _ _ _);
    [vm_compute; reflexivity | reflexivity | reflexivity | lia].
Defined.

(** ** The debugging pair [getSortedPosts] *)

Lemma ge_trans : Transitive (fun a b : Z => (b <= a)%Z).
Proof. intros a b c. lia. Qed.

Lemma ge_antisym : AntiSymm (=) (fun a b : Z => (b <= a)%Z).
Proof. intros a b. lia. Qed.

(** X23: the optimized query is the head of the original one.  Every
    answer of [getSortedPosts_OPTIMIZED] holds documents of the collection
    whose dates are those of the first ten documents of
    [getSortedPosts_ORIGINAL], in the same order; the [total] it reports is
    the size of that page, at most 10 and not the size of the collection, so
    [pages] is 0 or 1; and the query always has an answer. *)
Theorem optimized_is_head_of_original (docs : list Post.t) :
  (exists result, Debug.getSortedPosts_OPTIMIZED docs result)
  /\ forall result,
       Debug.getSortedPosts_OPTIMIZED docs result ->
       Post.created <$> Debug.pg_posts result
       = take 10 (Post.created <$> Debug.getSortedPosts_ORIGINAL docs)
       /\ Forall (fun d => In d docs) (Debug.pg_posts result)
       /\ Debug.pg_total result = length (Debug.pg_posts result)
       /\ Debug.pg_total result = Nat.min 10 (length docs)
       /\ Debug.pg_pages result
          = Js.Num (if bool_decide (docs = []) then 0 else 1).
Proof.
  assert (Debug.sortedByDb docs (Debug.getSortedPosts_ORIGINAL docs)) as Horig.
  { split.
    - symmetry. apply sort_Permutation.
    - apply sort_Sorted; intros x y; lia. }
  split.
  { eexists. exists (Debug.getSortedPosts_ORIGINAL docs). split; [exact Horig | done]. }
  intros result (sorted & [Hperm Hsorted] & ->).
  cbn [Debug.pg_posts Debug.pg_total Debug.pg_pages].
  change (Z.to_nat ((1 - 1) * 10)) with 0%nat.
  change (Z.to_nat 10) with 10%nat. rewrite drop_0.
  assert (length sorted = length docs) as Hlen by (by rewrite <- Hperm).
  split; [| split; [| split; [| split]]].
  - rewrite fmap_take. f_equal.
    apply (Sorted_unique (fun a b : Z => (b <= a)%Z)
             (Transitive0 := ge_trans) (AntiSymm0 := ge_antisym)).
    + eapply Sorted_fmap; [| exact Hsorted]. done.
    + eapply Sorted_fmap; [| exact (proj2 Horig)]. done.
    + apply fmap_Permutation. rewrite <- Hperm. exact (proj1 Horig).
  - apply Forall_forall. intros d Hd. apply subseteq_take in Hd.
    rewrite <- Hperm in Hd. by apply list_elem_of_In.
  - done.
  - rewrite length_take. lia.
  - rewrite length_take, Hlen. unfold Js.ceil_div.
    rewrite (bool_decide_eq_false_2 (10 = 0)%Z) by lia. f_equal.
    destruct docs as [| d docs].
    + by rewrite bool_decide_eq_true_2.
    + rewrite bool_decide_eq_false_2 by done. cbn [length].
      assert (1 <= Nat.min 10 (S (length docs)) <= 10)%nat as Hb by lia.
      pose proof (Z.div_mod (- Z.of_nat (Nat.min 10 (S (length docs)))) 10 ltac:(lia)).
      pose proof (Z.mod_pos_bound (- Z.of_nat (Nat.min 10 (S (length docs)))) 10
                    ltac:(lia)).
      lia.
Qed.

Lemma optimized_is_head_of_original_witness :
  exists result,
    Debug.getSortedPosts_OPTIMIZED samplePosts result
    /\ Post.created <$> Debug.pg_posts result
       = [1710253200000; 1710148500000; 1710093600000; 1710093600000]%Z.
Proof.
  destruct (optimized_is_head_of_original samplePosts) as [[result Hr] Hall].
  exists result. split; [exact Hr |]. exact (proj1 (Hall result Hr)).
Defined.

(** ** The global error handler *)

(** X24: [errorHandler] always answers with an error status, the one it
    also writes into the body; the stack trace and the error message leave
    the server only in development mode and only for an error that fits no
    other case, which is answered 500. *)
Theorem errorHandler_never_leaks (development : bool) (err : ErrorHandler.JsError) :
  let answer := ErrorHandler.errorHandler development err in
  answer.1 = ErrorHandler.b_statusCode answer.2
  /\ In answer.1 [400; 401; 403; 404; 408; 429; 500; 503]%nat
  /\ (development = false ->
      ErrorHandler.b_stack answer.2 = None /\ ErrorHandler.b_details answer.2 = None)
  /\ (answer.1 <> 500%nat ->
      ErrorHandler.b_stack answer.2 = None /\ ErrorHandler.b_details answer.2 = None)
  /\ (ErrorHandler.b_errors answer.2 <> None ->
      ErrorHandler.name err = "ValidationError" /\ answer.1 = 400%nat).
Proof.
  unfold ErrorHandler.errorHandler, ErrorHandler.plain.
  repeat case_match; simpl; repeat split; auto 10; try done.
  match goal with
  | Hname : bool_decide _ = true |- _ => by apply bool_decide_eq_true in Hname
  end.
Qed.

Lemma errorHandler_never_leaks_witness :
  ErrorHandler.b_stack
    (ErrorHandler.errorHandler false
       {| ErrorHandler.name := "TypeError"; ErrorHandler.status := None;
          ErrorHandler.code := None; ErrorHandler.isSyntaxError := false;
          ErrorHandler.hasBody := false; ErrorHandler.message := "x is undefined";
          ErrorHandler.stack := "at handler.js:1"; ErrorHandler.errors := None |}).2
  = None.
Proof.
  apply (proj1 (proj2 (proj2 (errorHandler_never_leaks false _))) eq_refl).
Defined.

(** X25: for an account that exists, [getFollowing] answers 200 exactly
    when every active edge from it points to an account that can be found,
    and 500 otherwise; on 200 the [total] of the pagination block is the
    following count [getFollowStats] reports, and every row of the page
    pairs the id of an active edge from the account with the account it
    points to. *)
Theorem getFollowing_exact clock req st target :
  findUser (users st) (param req) = Some target ->
  (status_of (fst (getFollowing clock req st)) = 200%nat
   <-> Forall (fun f => Follow.follower f = param req /\ Follow.isDeleted f = false ->
                        is_Some (findUser (users st) (Follow.following f)))
              (follows st))
  /\ In (status_of (fst (getFollowing clock req st))) [200; 500]%nat
  /\ forall status message following pagination,
       fst (getFollowing clock req st)
       = Success status message (FollowingPage following pagination) ->
       fp_total pagination = followingCount (follows st) (param req)
       /\ Forall (fun row =>
                    exists f u, In f (follows st)
                                /\ Follow.follower f = param req
                                /\ Follow.isDeleted f = false
                                /\ findUser (users st) (Follow.following f) = Some u
                                /\ row = (Follow.id f, userView u)) following.
Proof.
  intros Ht. unfold getFollowing. rewrite Ht.
  set (active := filter (fun f => Follow.follower f = param req
                                  /\ Follow.isDeleted f = false) (follows st)).
  pose proof (joinAccounts_is_Some (users st) Follow.following active) as Hsome.
  assert (Forall (fun f => is_Some (findUser (users st) (Follow.following f))) active
          <-> Forall (fun f => Follow.follower f = param req
                               /\ Follow.isDeleted f = false ->
                               is_Some (findUser (users st) (Follow.following f)))
                     (follows st)) as Hall.
  { unfold active. rewrite !Forall_forall. setoid_rewrite list_elem_of_filter.
    split; intros H x; [intros Hx Hact | intros [Hact Hx]]; by apply H. }
  destruct (joinAccounts (users st) Follow.following active) as [joined |] eqn:Hj.
  - split; [| split].
    + destruct (followsPage (query req) joined). simpl.
      rewrite <- Hall, <- Hsome. split; [by eauto | done].
    + destruct (followsPage (query req) joined). simpl. auto.
    + intros status message following pagination.
      destruct (followsPage (query req) joined) as [page pg] eqn:Hpage.
      simpl. intros [= <- <- <- <-].
      apply joinAccounts_Some in Hj. split.
      { unfold followsPage in Hpage. injection Hpage as _ <-. simpl.
        symmetry. by apply Forall2_length in Hj. }
      apply Forall_forall. intros row Hrow.
      assert (In row joined) as Hin.
      { apply (followsPage_rows (query req)). rewrite Hpage. by apply list_elem_of_In. }
      apply list_elem_of_In, list_elem_of_lookup_1 in Hin as [i Hi].
      destruct (Forall2_lookup_r _ _ _ _ _ Hj Hi) as (f & Hf & u & Hu & ->).
      apply list_elem_of_lookup_2, list_elem_of_filter in Hf as [[Hfo Hdel] Hf].
      exists f, u. repeat split; try done. by apply list_elem_of_In.
  - split; [| split].
    + simpl. rewrite <- Hall, <- Hsome. split; [done | by intros [? ?]].
    + simpl. auto.
    + intros status message following pagination. done.
Qed.

Lemma getFollowing_exact_witness :
  status_of (fst (getFollowing sampleClock (sampleReq None "u1" noQuery None)
                    sampleStore)) = 200%nat.
Proof.
  apply (proj1 (getFollowing_exact sampleClock (sampleReq None "u1" noQuery None)
                  sampleStore
                  (seedUser "u1" "John Doe" "john.doe@example.com" "admin" 1705309200000)
                  eq_refl)).
  repeat constructor; intros [Hf Hd]; try discriminate; vm_compute; eauto.
Defined.

(** ** Follow edges always join accounts *)












(** ** Stored content is trimmed *)

Lemma trimEnd_idem s : Js.trimEnd (Js.trimEnd s) = Js.trimEnd s.
Proof.
  induction s as [| c s IH]; [done |]. simpl.
  destruct (Js.trimEnd s) as [| d r] eqn:E.
  - destruct (Js.isWhiteSpace c) eqn:Hc; simpl; [done | by rewrite Hc].
  - simpl in *. rewrite IH. done.
Qed.

Lemma trimStart_head s :
  Js.trimStart s = EmptyString
  \/ exists c r, Js.trimStart s = String c r /\ Js.isWhiteSpace c = false.
Proof.
  induction s as [| c s IH]; simpl; [by left |].
  destruct (Js.isWhiteSpace c) eqn:Hc; [done |]. right. by exists c, s.
Qed.

Lemma trim_idem s : Js.trim (Js.trim s) = Js.trim s.
Proof.
  unfold Js.trim.
  destruct (trimStart_head s) as [-> | (c & r & -> & Hc)]; [done |].
  assert (forall x, Js.trimEnd (String c x) = String c (Js.trimEnd x)) as Hend.
  { intros x. simpl. destruct (Js.trimEnd x); [by rewrite Hc | done]. }
  assert (forall x, Js.trimStart (String c x) = String c x) as Hstart.
  { intros x. simpl. by rewrite Hc. }
  by rewrite Hend, Hstart, Hend, trimEnd_idem.
Qed.

(** X26: what [createPost] stores is in trimmed form: the content of the
    new row, which is also the content of the answer, starts and ends with a
    character that is not white space or is empty, so trimming it again
    changes nothing; and the row is the last of the array, not deleted. *)
Theorem createPost_stores_trimmed clock req st status message view st' :
  createPost clock req st = (Success status message (CreatedPost view), st') ->
  Js.trim (pv_content view) = pv_content view
  /\ exists post,
       posts st' = (posts st ++ [post])%list
       /\ postView post = view /\ Post.isDeleted post = false
       /\ users st' = users st /\ follows st' = follows st.
Proof.
  unfold createPost.
  destruct (content req) as [raw |]; [| done].
  destruct (user req) as [u |]; [| done].
  intros [= <- <- <- <-]. simpl. split; [apply trim_idem |].
  eexists. split; [done |]. by repeat split.
Qed.

Lemma createPost_stores_trimmed_witness :
  exists view st',
    createPost sampleClock
      (asUser {| p_id := "u2"; p_role := "user"; p_name := "Jane Doe" |}
         (sampleReq None "new" noQuery (Some "  two words  "))) sampleStore
    = (Success 201 (Some "Post created successfully") (CreatedPost view), st')
    /\ pv_content view = "two words"
    /\ Js.trim (pv_content view) = pv_content view.
Proof.
  eexists _, _. split; [vm_compute; reflexivity |]. split; [reflexivity |].
  refine (proj1 (createPost_stores_trimmed sampleClock
                   (asUser {| p_id := "u2"; p_role := "user"; p_name := "Jane Doe" |}
                      (sampleReq None "new" noQuery (Some "  two words  ")))
                   sampleStore 201 (Some "Post created successfully") _ _ _)).
  vm_compute; reflexivity.
Defined.
